(** * seller-apis: stock and price reconciliation for two marketplaces

    A shallow embedding of the reconciliation and batching code of
    [seller.py] (Ozon) and [market.py] (Yandex Market):
    [price_conversion], [divide], [create_stocks] and [create_prices],
    together with the part of [seller.main] that chains them.

    Python values are embedded as follows.
    - A [str] is a [string] holding its UTF-8 bytes.  The string
      operations the code uses (equality, [in] on a list, [split(".")],
      deleting everything outside [0-9]) act the same on code points
      and on their UTF-8 encoding, because every byte of a multi-byte
      sequence is above 127.
    - A spreadsheet cell is a [pyval]: [None], an [int], a [str], a
      [bool], or a [float], which is given by the two things the code
      asks of it: the text [str] makes of it and what [int] does with
      it (truncation towards zero, [ValueError] for a NaN,
      [OverflowError] for an infinity).  An [int] of more than 4300
      digits, on which [str] raises, does not come out of a
      spreadsheet and is outside the model.
    - A row of the spreadsheet is a [dict] from column names to cells.
    - An offer id is a [str], as [get_offer_ids] documents.  The list
      object bound to [offer_ids] lives in a store and is passed by
      reference, as Python does; [create_stocks] calls [remove] on it.
    - The snapshot list and its rows are only ever read; they are
      passed by value.
    - Exceptions are results [Raise e]; the store keeps the writes made
      before the exception. *)

From Stdlib Require Import ZArith String Ascii List Lia.
From stdpp Require Import base tactics option list numbers strings pretty gmap.

Local Open Scope string_scope.
Local Open Scope list_scope.
Local Open Scope Z_scope.

(** ** Python values *)

Inductive exn : Type :=
  | ValueError
  | TypeError
  | AttributeError
  | IndexError
  | NameError
  | OverflowError.

Inductive res (A : Type) : Type :=
  | Ok : A → res A
  | Raise : exn → res A.
Arguments Ok {A} _.
Arguments Raise {A} _.

Inductive pyval : Type :=
  | PNone : pyval
  | PInt : Z → pyval
  | PStr : string → pyval
  | PBool : bool → pyval
  | PFloat (repr : string) (trunc : res Z) : pyval.

Global Instance exn_eq_dec : EqDecision exn.
Proof. solve_decision. Defined.
Global Instance res_eq_dec {A} `{EqDecision A} : EqDecision (res A).
Proof. solve_decision. Defined.
Global Instance pyval_eq_dec : EqDecision pyval.
Proof. solve_decision. Defined.

(** A spreadsheet row, as produced by [to_dict(orient="records")]. *)
Abbreviation dict := (gmap string pyval).

(** [d.get(k)]: the value under [k], [None] when the key is absent. *)
Definition dict_get (d : dict) (k : string) : pyval :=
  default PNone (d !! k).

(** [str(v)]. *)
Definition py_str (v : pyval) : string :=
  match v with
  | PNone => "None"
  | PInt z => pretty z
  | PStr s => s
  | PBool b => if b then "True" else "False"
  | PFloat repr _ => repr
  end.

(** ** String primitives *)

Definition is_digit (c : ascii) : bool :=
  let n := N_of_ascii c in ((48 <=? n) && (n <=? 57))%N.

Definition digit_val (c : ascii) : Z := Z.of_N (N_of_ascii c) - 48.

(** White space that [int] skips around a numeral: tab, line feed,
    vertical tab, form feed, carriage return and the blank. *)
Definition is_space_char (c : ascii) : bool :=
  let n := N_of_ascii c in
  (((9 <=? n) && (n <=? 13)) || (n =? 32))%N.

(** [s.split(sep)] for a one-character separator: the pieces between
    the occurrences of [sep]; never the empty list. *)
Fixpoint split_on (sep : ascii) (s : string) : list string :=
  match s with
  | EmptyString => [EmptyString]
  | String c s' =>
      if Ascii.eqb c sep then EmptyString :: split_on sep s'
      else match split_on sep s' with
           | [] => [String c EmptyString]
           | p :: ps => String c p :: ps
           end
  end.

(** [re.sub("[^0-9]", "", s)]: every character outside [0-9] deleted. *)
Fixpoint strip_non_digits (s : string) : string :=
  match s with
  | EmptyString => EmptyString
  | String c s' =>
      if is_digit c then String c (strip_non_digits s') else strip_non_digits s'
  end.

Fixpoint lstrip_spaces (s : string) : string :=
  match s with
  | EmptyString => EmptyString
  | String c s' => if is_space_char c then lstrip_spaces s' else s
  end.

Fixpoint rstrip_spaces (s : string) : string :=
  match s with
  | EmptyString => EmptyString
  | String c s' =>
      match rstrip_spaces s' with
      | EmptyString => if is_space_char c then EmptyString else String c EmptyString
      | t => String c t
      end
  end.

(** The digits of a decimal numeral, most significant first; single
    underscores are allowed between digits, as in [int("1_000")]. *)
Fixpoint digits_value (acc : Z) (after_digit : bool) (s : string) : option Z :=
  match s with
  | EmptyString => if after_digit then Some acc else None
  | String c s' =>
      if is_digit c then digits_value (10 * acc + digit_val c) true s'
      else if Ascii.eqb c "_" then
        if after_digit then digits_value acc false s' else None
      else None
  end.

(** The number of characters [0-9] in [s]. *)
Fixpoint count_digits (s : string) : Z :=
  match s with
  | EmptyString => 0
  | String c s' => (if is_digit c then 1 else 0) + count_digits s'
  end.

(** The default of [sys.get_int_max_str_digits()]. *)
Definition max_str_digits : Z := 4300.

(** [int(s)] for a [str] in base ten: surrounding white space is
    skipped, then an optional sign, then the digits, of which there may
    be at most [max_str_digits].  Numerals written with non-ASCII
    digits or surrounded by non-ASCII white space are outside this
    model. *)
Definition int_of_string (s : string) : res Z :=
  let t := rstrip_spaces (lstrip_spaces s) in
  let '(negative, ds) :=
    match t with
    | String c ds =>
        if Ascii.eqb c "-" then (true, ds)
        else if Ascii.eqb c "+" then (false, ds)
        else (false, t)
    | EmptyString => (false, t)
    end in
  match digits_value 0 false ds with
  | Some n =>
      if max_str_digits <? count_digits ds then Raise ValueError
      else Ok (if negative then - n else n)
  | None => Raise ValueError
  end.

(** Whether a string consists of the characters [0-9] only. *)
Fixpoint all_digits (s : string) : bool :=
  match s with
  | EmptyString => true
  | String c s' => is_digit c && all_digits s'
  end.

(** Whether the character [c] occurs in [s]. *)
Fixpoint has_char (c : ascii) (s : string) : bool :=
  match s with
  | EmptyString => false
  | String a s' => Ascii.eqb a c || has_char c s'
  end.

(** [int(v)]. *)
Definition py_int (v : pyval) : res Z :=
  match v with
  | PNone => Raise TypeError
  | PInt z => Ok z
  | PStr s => int_of_string s
  | PBool b => Ok (if b then 1 else 0)
  | PFloat _ trunc => trunc
  end.

(** ** Python list primitives *)

(** [l.remove(x)]: the list without the first element equal to [x]. *)
Fixpoint remove_first (x : string) (l : list string) : list string :=
  match l with
  | [] => []
  | y :: l' => if decide (y = x) then l' else y :: remove_first x l'
  end.

(** [l[i:j]] with the usual treatment of negative and oversized bounds. *)
Definition slice_bound (len i : Z) : Z :=
  if i <? 0 then Z.max (i + len) 0 else Z.min i len.

Definition py_slice {A} (l : list A) (i j : Z) : list A :=
  let len := Z.of_nat (length l) in
  let lo := slice_bound len i in
  let hi := slice_bound len j in
  take (Z.to_nat (hi - lo)) (drop (Z.to_nat lo) l).

(** The values of [range(start, stop, step)] for a positive [step];
    [fuel] bounds the number of values. *)
Fixpoint range_up (fuel : nat) (i stop step : Z) : list Z :=
  match fuel with
  | O => []
  | S fuel' => if i <? stop then i :: range_up fuel' (i + step) stop step else []
  end.

(** [range(start, stop, step)] as iterated by a [for] loop.  A zero step
    raises; a negative step counts down. *)
Definition py_range (start stop step : Z) : res (list Z) :=
  if step =? 0 then Raise ValueError
  else if 0 <? step then Ok (range_up (Z.to_nat (stop - start)) start stop step)
  else Ok (Z.opp <$> range_up (Z.to_nat (start - stop)) (- start) (- stop) (- step)).

(** ** The store and the monad of commands *)

(** References to list objects. *)
Definition loc := positive.

(** What a call can observe besides its arguments: the list objects
    (each the current contents of a Python list of offer ids) and the
    reading of the UTC clock, already cut to whole seconds and printed
    by [isoformat()]. *)
Record world : Type := World {
  heap : gmap loc (list string);
  clock : string;
}.

Definition set_heap (h : gmap loc (list string)) (σ : world) : world :=
  {| heap := h; clock := clock σ |}.

(** A command returns a value or raises, and leaves a store behind in
    both cases. *)
Definition M (A : Type) : Type := world → res A * world.

Global Instance M_ret : MRet M := λ A (a : A) σ, (Ok a, σ).

Global Instance M_bind : MBind M := λ A B (f : A → M B) (m : M A) σ,
  match m σ with
  | (Ok a, σ') => f a σ'
  | (Raise e, σ') => (Raise e, σ')
  end.

Definition raise {A} (e : exn) : M A := λ σ, (Raise e, σ).

Definition lift {A} (r : res A) : M A := λ σ, (r, σ).

(** Reading the list object behind a reference.  A reference to no
    object cannot be built by a Python caller; the model raises
    [NameError] there. *)
Definition load (r : loc) : M (list string) := λ σ,
  match heap σ !! r with
  | Some l => (Ok l, σ)
  | None => (Raise NameError, σ)
  end.

Definition store (r : loc) (l : list string) : M unit := λ σ,
  (Ok tt, set_heap (<[r := l]> (heap σ)) σ).

(** A new list object with the given contents. *)
Definition alloc (l : list string) : M loc := λ σ,
  let r := fresh (dom (heap σ)) in
  (Ok r, set_heap (<[r := l]> (heap σ)) σ).

(** [x in r]. *)
Definition list_contains (r : loc) (x : string) : M bool :=
  l ← load r; mret (bool_decide (x ∈ l)).

(** [r.remove(x)]: deletes the first occurrence in place; [ValueError]
    when there is none. *)
Definition list_remove (r : loc) (x : string) : M unit :=
  l ← load r;
  if bool_decide (x ∈ l) then store r (remove_first x l) else raise ValueError.

(** [datetime.datetime.utcnow().replace(microsecond=0).isoformat()]. *)
Definition utcnow_isoformat : M string := λ σ, (Ok (clock σ), σ).

(** [for x in xs: body], threading the local variables [acc]. *)
Fixpoint for_each {A S : Type} (xs : list A) (acc : S) (body : S → A → M S) : M S :=
  match xs with
  | [] => mret acc
  | x :: xs' => acc' ← body acc x; for_each xs' acc' body
  end.

(** ** seller.py and the helpers market.py imports from it *)

(** [price_conversion(price)]: the digits of the text before the first
    full stop.  The result is a [str].  A cell that is not a [str] has
    no [split]. *)
Definition price_conversion (price : pyval) : res string :=
  match price with
  | PStr s =>
      match split_on "." s !! 0%nat with
      | Some p => Ok (strip_non_digits p)
      | None => Raise IndexError
      end
  | _ => Raise AttributeError
  end.

(** [list(divide(lst, n))]: the slices [lst[i : i + n]] for [i] in
    [range(0, len(lst), n)]. *)
Definition divide {A} (lst : list A) (n : Z) : res (list (list A)) :=
  match py_range 0 (Z.of_nat (length lst)) n with
  | Ok starts => Ok ((λ i, py_slice lst i (i + n)) <$> starts)
  | Raise e => Raise e
  end.

(** What the HTTP collaborators raise: [raise_for_status] and the two
    exceptions [main] tells apart. *)
Inductive http_exn : Type :=
  | HTTPError
  | ConnectionError
  | ReadTimeout.

(** [filter(pred, xs)] for a predicate that may raise. *)
Fixpoint py_filter {A : Type} (pred : A → res bool) (xs : list A) : res (list A) :=
  match xs with
  | [] => Ok []
  | x :: xs' =>
      match pred x with
      | Ok keep =>
          match py_filter pred xs' with
          | Ok kept => Ok (if keep then x :: kept else kept)
          | Raise e => Raise e
          end
      | Raise e => Raise e
      end
  end.

Module Seller.

(** [{"offer_id": ..., "stock": ...}]. *)
Record stock_item : Type := StockItem {
  offer_id : string;
  stock : Z;
}.

(** The price dictionary; [price_offer_id] is its key ["offer_id"]. *)
Record price_item : Type := PriceItem {
  auto_action_enabled : string;
  currency_code : string;
  price_offer_id : string;
  old_price : string;
  price : string;
}.

(** The body of the first loop of [create_stocks]. *)
Definition stocks_body (offer_ids : loc) (stocks : list stock_item) (watch : dict)
    : M (list stock_item) :=
  found ← list_contains offer_ids (py_str (dict_get watch "Код"));
  if (found : bool) then
    let count := py_str (dict_get watch "Количество") in
    stock ← (if String.eqb count ">10" then mret 100
             else if String.eqb count "1" then mret 0
             else lift (py_int (dict_get watch "Количество")));
    let stocks := stocks ++ [{| offer_id := py_str (dict_get watch "Код");
                                stock := stock |}] in
    _ ← list_remove offer_ids (py_str (dict_get watch "Код"));
    mret stocks
  else mret stocks.

Definition create_stocks (watch_remnants : list dict) (offer_ids : loc)
    : M (list stock_item) :=
  stocks ← for_each watch_remnants [] (stocks_body offer_ids);
  remaining ← load offer_ids;
  for_each remaining stocks
    (λ stocks offer_id, mret (stocks ++ [{| offer_id := offer_id; stock := 0 |}])).

(** The body of the loop of [create_prices]. *)
Definition prices_body (offer_ids : loc) (prices : list price_item) (watch : dict)
    : M (list price_item) :=
  found ← list_contains offer_ids (py_str (dict_get watch "Код"));
  if (found : bool) then
    p ← lift (price_conversion (dict_get watch "Цена"));
    let price := {| auto_action_enabled := "UNKNOWN";
                    currency_code := "RUB";
                    price_offer_id := py_str (dict_get watch "Код");
                    old_price := "0";
                    price := p |} in
    mret (prices ++ [price])
  else mret prices.

Definition create_prices (watch_remnants : list dict) (offer_ids : loc)
    : M (list price_item) :=
  for_each watch_remnants [] (prices_body offer_ids).

(** [upload_prices] without the HTTP calls: [fetched] is what
    [get_offer_ids] returns, a list object of its own; the batches are
    the arguments of the successive [update_price] calls. *)
Definition upload_prices (fetched : list string) (watch_remnants : list dict)
    : M (list (list price_item) * list price_item) :=
  offer_ids ← alloc fetched;
  prices ← create_prices watch_remnants offer_ids;
  batches ← lift (divide prices 1000);
  mret (batches, prices).

(** [upload_stocks] without the HTTP calls: the batches sent, the
    entries with a non-zero stock, and all entries. *)
Definition upload_stocks (fetched : list string) (watch_remnants : list dict)
    : M (list (list stock_item) * list stock_item * list stock_item) :=
  offer_ids ← alloc fetched;
  stocks ← create_stocks watch_remnants offer_ids;
  batches ← lift (divide stocks 100);
  let not_empty := filter (λ s, stock s ≠ 0) stocks in
  mret (batches, not_empty, stocks).

(** The [try] block of [main] without the HTTP calls: one list object
    holds the fetched offer ids and is handed first to
    [create_stocks], then to [create_prices].  The result is the
    batches sent to [update_stocks] and those sent to
    [update_price]. *)
Definition main (fetched : list string) (watch_remnants : list dict)
    : M (list (list stock_item) * list (list price_item)) :=
  offer_ids ← alloc fetched;
  stocks ← create_stocks watch_remnants offer_ids;
  stock_batches ← lift (divide stocks 100);
  prices ← create_prices watch_remnants offer_ids;
  price_batches ← lift (divide prices 900);
  mret (stock_batches, price_batches).

(** The ["result"] object of one answer of [/v2/product/list]. *)
Record product_page : Type := ProductPage {
  items : list dict;
  total : Z;
  last_id : string;
}.

(** The [while True] loop of [get_offer_ids].  [get_product_list] is
    the HTTP call as a function of the cursor; [fuel] bounds the number
    of requests, and [None] says that the bound was reached before the
    loop left. *)
Fixpoint get_offer_ids_loop (get_product_list : string → http_exn + product_page)
    (fuel : nat) (last_id : string) (product_list : list dict)
    : option (http_exn + list dict) :=
  match fuel with
  | O => None
  | S fuel' =>
      match get_product_list last_id with
      | inl e => Some (inl e)
      | inr some_prod =>
          let product_list := product_list ++ items some_prod in
          if total some_prod =? Z.of_nat (length product_list)
          then Some (inr product_list)
          else get_offer_ids_loop get_product_list fuel' (Seller.last_id some_prod) product_list
      end
  end.

Definition get_offer_ids (get_product_list : string → http_exn + product_page)
    (fuel : nat) : option (http_exn + list pyval) :=
  match get_offer_ids_loop get_product_list fuel "" [] with
  | Some (inr product_list) =>
      Some (inr ((λ product, dict_get product "offer_id") <$> product_list))
  | Some (inl e) => Some (inl e)
  | None => None
  end.

End Seller.

(** ** market.py *)

Module Market.

Record stock_count : Type := StockCount {
  count : Z;
  type : string;
  updatedAt : string;
}.

Record stock_item : Type := StockItem {
  sku : string;
  warehouseId : string;
  items : list stock_count;
}.

Record price_value : Type := PriceValue {
  value : Z;
  currencyId : string;
}.

Record price_item : Type := PriceItem {
  id : string;
  price : price_value;
}.

(** The body of the first loop of [create_stocks]. *)
Definition stocks_body (offer_ids : loc) (warehouse_id date : string)
    (stocks : list stock_item) (watch : dict) : M (list stock_item) :=
  found ← list_contains offer_ids (py_str (dict_get watch "Код"));
  if (found : bool) then
    let count := py_str (dict_get watch "Количество") in
    stock ← (if String.eqb count ">10" then mret 100
             else if String.eqb count "1" then mret 0
             else lift (py_int (dict_get watch "Количество")));
    let stocks :=
      stocks ++ [{| sku := py_str (dict_get watch "Код");
                    warehouseId := warehouse_id;
                    items := [{| count := stock; type := "FIT"; updatedAt := date |}] |}] in
    _ ← list_remove offer_ids (py_str (dict_get watch "Код"));
    mret stocks
  else mret stocks.

Definition create_stocks (watch_remnants : list dict) (offer_ids : loc)
    (warehouse_id : string) : M (list stock_item) :=
  now ← utcnow_isoformat;
  let date := now +:+ "Z" in
  stocks ← for_each watch_remnants [] (stocks_body offer_ids warehouse_id date);
  remaining ← load offer_ids;
  for_each remaining stocks
    (λ stocks offer_id,
       mret (stocks ++ [{| sku := offer_id;
                           warehouseId := warehouse_id;
                           items := [{| count := 0; type := "FIT"; updatedAt := date |}] |}])).

(** The body of the loop of [create_prices]. *)
Definition prices_body (offer_ids : loc) (prices : list price_item) (watch : dict)
    : M (list price_item) :=
  found ← list_contains offer_ids (py_str (dict_get watch "Код"));
  if (found : bool) then
    p ← lift (price_conversion (dict_get watch "Цена"));
    v ← lift (int_of_string p);
    let price := {| id := py_str (dict_get watch "Код");
                    price := {| value := v; currencyId := "RUR" |} |} in
    mret (prices ++ [price])
  else mret prices.

Definition create_prices (watch_remnants : list dict) (offer_ids : loc)
    : M (list price_item) :=
  for_each watch_remnants [] (prices_body offer_ids).

(** [upload_prices] without the HTTP calls, as in seller.py. *)
Definition upload_prices (fetched : list string) (watch_remnants : list dict)
    : M (list (list price_item) * list price_item) :=
  offer_ids ← alloc fetched;
  prices ← create_prices watch_remnants offer_ids;
  batches ← lift (divide prices 500);
  mret (batches, prices).

(** [lambda stock: stock.get("items")[0].get("count") != 0], the
    predicate of the filter in [upload_stocks]. *)
Definition first_count_nonzero (stock : stock_item) : res bool :=
  match items stock !! 0%nat with
  | Some item => Ok (negb (count item =? 0))
  | None => Raise IndexError
  end.

(** [upload_stocks] from the point where [get_offer_ids] has returned
    [fetched], and without the [update_stocks] calls, which receive the
    batches in turn: the batches, the entries whose first item has a
    non-zero count, and all entries.  The code returns the last two
    only if, in addition, no HTTP call raises. *)
Definition upload_stocks (fetched : list string) (watch_remnants : list dict)
    (warehouse_id : string)
    : M (list (list stock_item) * list stock_item * list stock_item) :=
  offer_ids ← alloc fetched;
  stocks ← create_stocks watch_remnants offer_ids warehouse_id;
  batches ← lift (divide stocks 2000);
  not_empty ← lift (py_filter first_count_nonzero stocks);
  mret (batches, not_empty, stocks).

(** An element of ["offerMappingEntries"], its ["paging"] object and
    the ["result"] object of one answer. *)
Record mapping_entry : Type := MappingEntry {
  offer : dict;
}.

Record paging_info : Type := PagingInfo {
  nextPageToken : option string;
}.

Record entries_page : Type := EntriesPage {
  offerMappingEntries : list mapping_entry;
  paging : paging_info;
}.

(** The [while True] loop of [get_offer_ids]: it leaves when the next
    page token is absent or empty. *)
Fixpoint get_offer_ids_loop (get_product_list : string → http_exn + entries_page)
    (fuel : nat) (page : string) (product_list : list mapping_entry)
    : option (http_exn + list mapping_entry) :=
  match fuel with
  | O => None
  | S fuel' =>
      match get_product_list page with
      | inl e => Some (inl e)
      | inr some_prod =>
          let product_list := product_list ++ offerMappingEntries some_prod in
          match nextPageToken (paging some_prod) with
          | None => Some (inr product_list)
          | Some page =>
              if String.eqb page "" then Some (inr product_list)
              else get_offer_ids_loop get_product_list fuel' page product_list
          end
      end
  end.

Definition get_offer_ids (get_product_list : string → http_exn + entries_page)
    (fuel : nat) : option (http_exn + list pyval) :=
  match get_offer_ids_loop get_product_list fuel "" [] with
  | Some (inr product_list) =>
      Some (inr ((λ product, dict_get (offer product) "shopSku") <$> product_list))
  | Some (inl e) => Some (inl e)
  | None => None
  end.

End Market.

(** ** Reference functions for the reconciliation loops

    What the loops of [create_stocks] and [create_prices] compute, as
    functions of the snapshot and of the contents [l] of the list
    object behind [offer_ids]; the theorems below relate the code to
    them. *)

(** [str(watch.get("Код"))]. *)
Definition code_of (watch : dict) : string := py_str (dict_get watch "Код").

(** The [if]/[elif]/[else] on the quantity cell in [create_stocks]. *)
Definition bucket (quantity : pyval) : res Z :=
  let count := py_str quantity in
  if String.eqb count ">10" then Ok 100
  else if String.eqb count "1" then Ok 0
  else py_int quantity.

Definition stock_of (watch : dict) : res Z := bucket (dict_get watch "Количество").

(** The price field of seller.py and of market.py. *)
Definition seller_price_of (watch : dict) : res string :=
  price_conversion (dict_get watch "Цена").

Definition market_price_of (watch : dict) : res Z :=
  match price_conversion (dict_get watch "Цена") with
  | Ok p => int_of_string p
  | Raise e => Raise e
  end.

(** The records for which the membership test of [create_stocks]
    succeeds when the loop reaches them: each hit removes one
    occurrence of its code from the list. *)
Fixpoint matched (ws : list dict) (l : list string) : list dict :=
  match ws with
  | [] => []
  | w :: ws' =>
      if bool_decide (code_of w ∈ l) then w :: matched ws' (remove_first (code_of w) l)
      else matched ws' l
  end.

(** The contents of the list once the first loop has run over [ws]. *)
Fixpoint working (ws : list dict) (l : list string) : list string :=
  match ws with
  | [] => l
  | w :: ws' =>
      if bool_decide (code_of w ∈ l) then working ws' (remove_first (code_of w) l)
      else working ws' l
  end.

(** The code and the computed field of each record, up to the first
    record whose field raises. *)
Fixpoint collect {V : Type} (f : dict → res V) (hs : list dict) : res (list (string * V)) :=
  match hs with
  | [] => Ok []
  | w :: hs' =>
      match f w with
      | Ok v => match collect f hs' with
                | Ok ps => Ok ((code_of w, v) :: ps)
                | Raise e => Raise e
                end
      | Raise e => Raise e
      end
  end.

(** The bucketing table of the specification, as a relation between a
    quantity cell and a stock value. *)
Definition bucket_table (quantity : pyval) (v : Z) : Prop :=
  (py_str quantity = ">10" → v = 100)
  ∧ (py_str quantity = "1" → v = 0)
  ∧ (py_str quantity ≠ ">10" → py_str quantity ≠ "1" → py_int quantity = Ok v).

(** A stock entry of market.py without its time stamp. *)
Definition untimed (e : Market.stock_item) : string * string * list (Z * string) :=
  (Market.sku e, Market.warehouseId e, (λ c, (Market.count c, Market.type c)) <$> Market.items e).

Definition seller_stock (p : string * Z) : Seller.stock_item :=
  {| Seller.offer_id := p.1; Seller.stock := p.2 |}.

Definition seller_price (p : string * string) : Seller.price_item :=
  {| Seller.auto_action_enabled := "UNKNOWN"; Seller.currency_code := "RUB";
     Seller.price_offer_id := p.1; Seller.old_price := "0"; Seller.price := p.2 |}.

Definition market_stock (warehouse_id date : string) (p : string * Z) : Market.stock_item :=
  {| Market.sku := p.1; Market.warehouseId := warehouse_id;
     Market.items := [{| Market.count := p.2; Market.type := "FIT";
                         Market.updatedAt := date |}] |}.

Definition market_price (p : string * Z) : Market.price_item :=
  {| Market.id := p.1;
     Market.price := {| Market.value := p.2; Market.currencyId := "RUR" |} |}.

(** The value part of a result. *)
Definition res_map {A B : Type} (f : A → B) (r : res A) : res B :=
  match r with
  | Ok a => Ok (f a)
  | Raise e => Raise e
  end.

(** ** Sample data *)

Definition sample_ref : loc := 1%positive.

(** A store with one list object and the clock at a given second. *)
Definition sample_world_at (now : string) (l : list string) : world :=
  {| heap := {[ sample_ref := l ]}; clock := now |}.

Definition sample_world (l : list string) : world :=
  sample_world_at "2024-05-01T10:00:00" l.

(** A store without any list object. *)
Definition empty_world : world := {| heap := ∅; clock := "2024-05-01T10:00:00" |}.

Definition watch_row (code quantity price : pyval) : dict :=
  {[ "Код" := code; "Количество" := quantity; "Цена" := price ]}.

Definition watch_123 : dict := watch_row (PStr "123") (PStr "10") (PStr "5'990.00 руб.").

(** A listing of three products, the last one without an offer id,
    served two at a time; the cursors are "", "p2" and "p3". *)
Definition sample_products : list dict :=
  [ {[ "offer_id" := PStr "A" ]}; {[ "offer_id" := PStr "B" ]}; {[ "name" := PStr "C" ]} ].

Definition sample_pos (id : string) : nat :=
  if String.eqb id "" then 0%nat else if String.eqb id "p2" then 2%nat else 3%nat.

Definition sample_cursor (n : nat) : string :=
  match n with
  | O => ""
  | 1%nat | 2%nat => "p2"
  | _ => "p3"
  end.

Definition sample_listing (reported_total : Z) (id : string)
    : http_exn + Seller.product_page :=
  let items := take 2 (drop (sample_pos id) sample_products) in
  inr {| Seller.items := items;
         Seller.total := reported_total;
         Seller.last_id := sample_cursor (sample_pos id + length items) |}.

(** A listing of market.py in two pages, the second one reached with
    the token "t1" and without a next token. *)
Definition sample_entry (sku : string) : Market.mapping_entry :=
  {| Market.offer := {[ "shopSku" := PStr sku ]} |}.

Definition sample_pages : list (list Market.mapping_entry) :=
  [ [sample_entry "A"; sample_entry "B"]; [sample_entry "C"] ].

Definition sample_token (i : nat) : string :=
  match i with
  | O => ""
  | _ => "t1"
  end.

Definition sample_mapping (page : string) : http_exn + Market.entries_page :=
  if String.eqb page "" then
    inr {| Market.offerMappingEntries := [sample_entry "A"; sample_entry "B"];
           Market.paging := {| Market.nextPageToken := Some "t1" |} |}
  else
    inr {| Market.offerMappingEntries := [sample_entry "C"];
           Market.paging := {| Market.nextPageToken := None |} |}.

(** A listing that hands out a next page token with every answer. *)
Definition endless_mapping (page : string) : http_exn + Market.entries_page :=
  inr {| Market.offerMappingEntries := [sample_entry "A"];
         Market.paging := {| Market.nextPageToken := Some "again" |} |}.

Example py_str_int : py_str (PInt 10) = "10" ∧ py_str (PInt (-3)) = "-3" ∧ py_str PNone = "None".
Proof. repeat split. Qed.

Example py_int_samples :
  py_int (PStr "7") = Ok 7 ∧ py_int (PStr " -12 ") = Ok (-12) ∧
  py_int (PStr "1_000") = Ok 1000 ∧ py_int (PStr "") = Raise ValueError ∧
  py_int (PStr ">10") = Raise ValueError ∧ py_int (PStr "1_") = Raise ValueError ∧
  py_int (PStr "_1") = Raise ValueError ∧ py_int (PStr "1__0") = Raise ValueError ∧
  py_int (PStr "007") = Ok 7 ∧ py_int (PStr "+5") = Ok 5 ∧
  py_int (PStr "+-5") = Raise ValueError ∧ py_int (PStr "- 5") = Raise ValueError ∧
  py_int (PStr "5 5") = Raise ValueError ∧ py_int (PStr "1.0") = Raise ValueError ∧
  py_int (PStr "-0") = Ok 0 ∧ py_int (PStr "+") = Raise ValueError ∧
  py_int (PStr " ") = Raise ValueError ∧ py_int (PInt 5) = Ok 5 ∧
  py_int PNone = Raise TypeError.
Proof. repeat split. Qed.

(** The limit on the digits of a numeral: 4300 digits are converted,
    with or without a sign, one more is refused, and leading zeros
    count. *)
Example int_digit_limit :
  (∃ n, int_of_string (string_of_list_ascii (replicate 4300 "1"%char)) = Ok n)
  ∧ int_of_string (string_of_list_ascii (replicate 4301 "1"%char)) = Raise ValueError
  ∧ (∃ n, int_of_string (String "-" (string_of_list_ascii (replicate 4300 "1"%char)))
          = Ok n)
  ∧ int_of_string (string_of_list_ascii (replicate 4300 "0"%char ++ ["1"%char]))
    = Raise ValueError.
Proof.
  split_and!; [eexists| |eexists|]; vm_compute; reflexivity.
Qed.

Example number_cells :
  py_str (PFloat "2.7" (Ok 2)) = "2.7" ∧ py_int (PFloat "2.7" (Ok 2)) = Ok 2 ∧
  py_str (PBool true) = "True" ∧ py_int (PBool true) = Ok 1 ∧
  py_str (PBool false) = "False" ∧ py_int (PBool false) = Ok 0 ∧
  price_conversion (PFloat "2.7" (Ok 2)) = Raise AttributeError ∧
  price_conversion (PBool true) = Raise AttributeError.
Proof. repeat split. Qed.

Example price_conversion_split_samples :
  split_on "." "5'990.00 руб." = ["5'990"; "00 руб"; ""] ∧ split_on "." "" = [""] ∧
  split_on "." ".5" = [""; "5"] ∧ price_conversion (PStr "a1.b2.c3") = Ok "1" ∧
  price_conversion PNone = Raise AttributeError ∧
  price_conversion (PInt 5) = Raise AttributeError.
Proof. repeat split. Qed.

Example py_range_samples :
  py_range 0 5 2 = Ok [0; 2; 4] ∧ py_range 0 0 3 = Ok [] ∧
  py_range 0 5 0 = Raise ValueError ∧ py_range 0 5 (-1) = Ok [] ∧
  py_range 5 0 (-2) = Ok [5; 3; 1].
Proof. repeat split. Qed.

(** ** The batcher *)

Section divide.
Context {A : Type}.
Implicit Types (lst : list A) (n i : Z).

Lemma range_up_lookup fuel i stop step (k : nat) x :
  range_up fuel i stop step !! k = Some x → x = i + Z.of_nat k * step ∧ x < stop.
Proof.
  revert i k. induction fuel as [|fuel IH]; intros i k; simpl; [done|].
  destruct (Z.ltb_spec i stop) as [Hlt|Hge]; [|done].
  destruct k as [|k]; simpl.
  - intros [= <-]. lia.
  - intros Hk. apply IH in Hk. lia.
Qed.

Lemma range_up_length fuel i stop step :
  0 < step → stop - i ≤ Z.of_nat fuel →
  Z.of_nat (length (range_up fuel i stop step)) = Z.max 0 ((stop - i + step - 1) / step).
Proof.
  intros Hstep. revert i. induction fuel as [|fuel IH]; intros i Hfuel; simpl.
  - assert ((stop - i + step - 1) / step ≤ 0); [|lia].
    apply Z.lt_succ_r, Z.div_lt_upper_bound; lia.
  - destruct (Z.ltb_spec i stop) as [Hlt|Hge]; simpl.
    + rewrite Nat2Z.inj_succ, IH by lia.
      replace (stop - i + step - 1) with ((stop - (i + step) + step - 1) + 1 * step) by lia.
      rewrite Z.div_add by lia.
      assert (0 ≤ (stop - (i + step) + step - 1) / step); [|lia].
      apply Z.div_pos; lia.
    + assert ((stop - i + step - 1) / step ≤ 0); [|lia].
      apply Z.lt_succ_r, Z.div_lt_upper_bound; lia.
Qed.

(** A slice that starts inside the list. *)
Lemma py_slice_chunk lst i n :
  0 ≤ i → 0 < n →
  py_slice lst i (i + n) =
    take (Z.to_nat (Z.min (i + n) (Z.of_nat (length lst)) - Z.min i (Z.of_nat (length lst))))
         (drop (Z.to_nat (Z.min i (Z.of_nat (length lst)))) lst).
Proof.
  intros Hi Hn. unfold py_slice, slice_bound.
  destruct (Z.ltb_spec i 0); [lia|]. destruct (Z.ltb_spec (i + n) 0); [lia|]. done.
Qed.

Lemma chunks_concat lst n fuel i :
  0 < n → 0 ≤ i → Z.of_nat (length lst) - i ≤ Z.of_nat fuel →
  concat ((λ i, py_slice lst i (i + n)) <$> range_up fuel i (Z.of_nat (length lst)) n)
  = drop (Z.to_nat i) lst.
Proof.
  intros Hn. revert i. induction fuel as [|fuel IH]; intros i Hi Hfuel; simpl.
  - rewrite drop_ge; [done|lia].
  - destruct (Z.ltb_spec i (Z.of_nat (length lst))) as [Hlt|Hge]; simpl.
    + rewrite IH by lia. rewrite py_slice_chunk by lia.
      rewrite (Z.min_l i) by lia.
      destruct (Z.le_gt_cases (i + n) (Z.of_nat (length lst))) as [Hin|Hout].
      * rewrite Z.min_l by lia.
        replace (Z.to_nat (i + n)) with (Z.to_nat i + Z.to_nat n)%nat by lia.
        rewrite <- drop_drop.
        replace (Z.to_nat (i + n - i)) with (Z.to_nat n) by lia.
        apply take_drop.
      * rewrite Z.min_r by lia.
        rewrite (drop_ge _ (Z.to_nat (i + n))) by lia.
        rewrite app_nil_r. apply take_ge. rewrite length_drop. lia.
    + rewrite drop_ge; [done|lia].
Qed.

Lemma chunk_length lst n fuel i (k : nat) c :
  0 < n → 0 ≤ i →
  ((λ i, py_slice lst i (i + n)) <$> range_up fuel i (Z.of_nat (length lst)) n) !! k = Some c →
  Z.of_nat (length c) = Z.min n (Z.of_nat (length lst) - (i + Z.of_nat k * n))
  ∧ i + Z.of_nat k * n < Z.of_nat (length lst).
Proof.
  intros Hn Hi. rewrite list_lookup_fmap.
  destruct (range_up _ _ _ _ !! k) as [x|] eqn:Hx; simpl; [|done].
  intros [= <-]. apply range_up_lookup in Hx as [-> Hlt].
  split; [|done]. rewrite py_slice_chunk by lia.
  rewrite length_take, length_drop. lia.
Qed.
End divide.

(** C5. For a positive chunk size [n], [list(divide(lst, n))] returns
    chunks whose concatenation is [lst]; their number is the ceiling of
    [len(lst) / n], written [(len + n - 1) / n] and pinned down by
    [len ≤ count * n < len + n]; every chunk but the last has exactly
    [n] elements and no chunk is empty or longer than [n]; and
    [divide([1, 2, 3, 4, 5], 2)] is [[1, 2], [3, 4], [5]]. *)
Theorem divide_chunks {A : Type} (lst : list A) (n : Z) :
  0 < n →
  ∃ chunks : list (list A),
    divide lst n = Ok chunks
    ∧ concat chunks = lst
    ∧ Z.of_nat (length chunks) = (Z.of_nat (length lst) + n - 1) / n
    ∧ Z.of_nat (length lst) ≤ Z.of_nat (length chunks) * n < Z.of_nat (length lst) + n
    ∧ (∀ (k : nat) c, chunks !! k = Some c → (S k < length chunks)%nat →
         Z.of_nat (length c) = n)
    ∧ (∀ c, c ∈ chunks → 0 < Z.of_nat (length c) ≤ n)
    ∧ divide [1; 2; 3; 4; 5] 2 = Ok [[1; 2]; [3; 4]; [5]].
Proof.
  intros Hn. unfold divide at 1, py_range.
  destruct (Z.eqb_spec n 0) as [|_]; [lia|].
  destruct (Z.ltb_spec 0 n) as [_|]; [|lia].
  rewrite Z.sub_0_r, Nat2Z.id.
  set (len := Z.of_nat (length lst)).
  set (chunks := (λ i, py_slice lst i (i + n)) <$> range_up (length lst) 0 len n).
  assert (Hcount : Z.of_nat (length chunks) = (len + n - 1) / n).
  { unfold chunks. rewrite length_fmap, range_up_length by lia.
    rewrite Z.sub_0_r. apply Z.max_r, Z.div_pos; lia. }
  assert (Hceil : len ≤ Z.of_nat (length chunks) * n < len + n).
  { rewrite Hcount.
    pose proof (Z.div_mod (len + n - 1) n ltac:(lia)) as Hdm.
    pose proof (Z.mod_pos_bound (len + n - 1) n Hn) as Hmod.
    rewrite (Z.mul_comm _ n). lia. }
  exists chunks. repeat apply conj; try done; try apply Hceil.
  - unfold chunks, len. rewrite chunks_concat by lia. done.
  - intros k c Hk Hnext.
    destruct (lookup_lt_is_Some_2 chunks (S k) Hnext) as [c' Hk'].
    apply chunk_length in Hk as [Hlen _]; [|lia..].
    apply chunk_length in Hk' as [_ Hin]; [|lia..].
    fold len in Hlen, Hin. lia.
  - intros c [k Hk]%list_elem_of_lookup.
    apply chunk_length in Hk as [Hlen Hin]; [|lia..].
    fold len in Hlen, Hin. lia.
Qed.

Lemma divide_chunks_witness :
  0 < 2 ∧
  ∃ chunks : list (list string),
    divide ["a"; "b"; "c"] 2 = Ok chunks
    ∧ concat chunks = ["a"; "b"; "c"]
    ∧ Z.of_nat (length chunks) = (Z.of_nat (length ["a"; "b"; "c"]) + 2 - 1) / 2
    ∧ Z.of_nat (length ["a"; "b"; "c"]) ≤ Z.of_nat (length chunks) * 2
        < Z.of_nat (length ["a"; "b"; "c"]) + 2
    ∧ (∀ (k : nat) c, chunks !! k = Some c → (S k < length chunks)%nat →
         Z.of_nat (length c) = 2)
    ∧ (∀ c, c ∈ chunks → 0 < Z.of_nat (length c) ≤ 2)
    ∧ divide [1; 2; 3; 4; 5] 2 = Ok [[1; 2]; [3; 4]; [5]].
Proof. split; [lia | apply (divide_chunks ["a"; "b"; "c"] 2); lia]. Defined.

(** A chunk size of zero raises when the generator is first advanced,
    and a negative one yields no chunk at all. *)
Lemma divide_nonpositive {A : Type} (lst : list A) (n : Z) :
  divide lst 0 = Raise ValueError ∧ (n < 0 → divide lst n = Ok []).
Proof.
  split; [done|]. intros Hn. unfold divide, py_range.
  destruct (Z.eqb_spec n 0); [lia|]. destruct (Z.ltb_spec 0 n); [lia|].
  simpl. replace (Z.to_nat (0 - Z.of_nat (length lst))) with 0%nat by lia. done.
Qed.

(** ** The reconciliation loops *)

Ltac run_cmd :=
  unfold list_contains, list_remove, load, store, raise, lift, utcnow_isoformat,
    mbind, M_bind, mret, M_ret; simpl.

Lemma set_heap_same σ r l :
  heap σ !! r = Some l → set_heap (<[r := l]> (heap σ)) σ = σ.
Proof. intros H. destruct σ as [h c]; unfold set_heap; simpl in *. by rewrite insert_id. Qed.

Lemma set_heap_lookup σ r l : heap (set_heap (<[r := l]> (heap σ)) σ) !! r = Some l.
Proof. simpl. apply lookup_insert_eq. Qed.

Lemma stock_step_cases {E : Type} (mk : string * Z → E) r σ l (stocks : list E) w :
  heap σ !! r = Some l →
  (found ← list_contains r (code_of w);
   if (found : bool) then
     stock ← (if String.eqb (py_str (dict_get w "Количество")) ">10" then mret 100
              else if String.eqb (py_str (dict_get w "Количество")) "1" then mret 0
              else lift (py_int (dict_get w "Количество")));
     _ ← list_remove r (code_of w);
     mret (stocks ++ [mk (code_of w, stock)])
   else mret stocks) σ
  = if bool_decide (code_of w ∈ l) then
      match stock_of w with
      | Ok v => (Ok (stocks ++ [mk (code_of w, v)]),
                 set_heap (<[r := remove_first (code_of w) l]> (heap σ)) σ)
      | Raise e => (Raise e, σ)
      end
    else (Ok stocks, σ).
Proof.
  intros Hr. run_cmd. rewrite Hr. simpl.
  destruct (bool_decide (code_of w ∈ l)) eqn:Hin; simpl; [|done].
  unfold stock_of, bucket.
  destruct (String.eqb _ ">10"); simpl.
  { rewrite Hr; simpl. by rewrite Hin. }
  destruct (String.eqb _ "1"); simpl.
  { rewrite Hr; simpl. by rewrite Hin. }
  destruct (py_int _); simpl; [|done].
  rewrite Hr; simpl. by rewrite Hin.
Qed.

Lemma seller_stocks_body_step r σ l stocks w :
  heap σ !! r = Some l →
  Seller.stocks_body r stocks w σ
  = if bool_decide (code_of w ∈ l) then
      match stock_of w with
      | Ok v => (Ok (stocks ++ [seller_stock (code_of w, v)]),
                 set_heap (<[r := remove_first (code_of w) l]> (heap σ)) σ)
      | Raise e => (Raise e, σ)
      end
    else (Ok stocks, σ).
Proof. apply (stock_step_cases seller_stock). Qed.

Lemma market_stocks_body_step wh date r σ l stocks w :
  heap σ !! r = Some l →
  Market.stocks_body r wh date stocks w σ
  = if bool_decide (code_of w ∈ l) then
      match stock_of w with
      | Ok v => (Ok (stocks ++ [market_stock wh date (code_of w, v)]),
                 set_heap (<[r := remove_first (code_of w) l]> (heap σ)) σ)
      | Raise e => (Raise e, σ)
      end
    else (Ok stocks, σ).
Proof. apply (stock_step_cases (market_stock wh date)). Qed.

Lemma append_loop {E : Type} (zero : string → E) (rest : list string) (stocks : list E) σ :
  for_each rest stocks (λ stocks offer_id, mret (stocks ++ [zero offer_id])) σ
  = (Ok (stocks ++ (zero <$> rest)), σ).
Proof.
  revert stocks. induction rest as [|o rest IH]; intros stocks; simpl.
  - by rewrite app_nil_r.
  - run_cmd. rewrite IH. by rewrite <- app_assoc.
Qed.

Section stocks_loop.
Context {E : Type} (mk : string * Z → E) (r : loc).
Variable body : list E → dict → M (list E).
Hypothesis body_step : ∀ σ l stocks w,
  heap σ !! r = Some l →
  body stocks w σ
  = if bool_decide (code_of w ∈ l) then
      match stock_of w with
      | Ok v => (Ok (stocks ++ [mk (code_of w, v)]),
                 set_heap (<[r := remove_first (code_of w) l]> (heap σ)) σ)
      | Raise e => (Raise e, σ)
      end
    else (Ok stocks, σ).

Lemma stocks_loop_result ws : ∀ σ l acc,
  heap σ !! r = Some l →
  (for_each ws acc body σ).1
  = res_map (λ ps, acc ++ (mk <$> ps)) (collect stock_of (matched ws l)).
Proof.
  induction ws as [|w ws IH]; intros σ l acc Hr; simpl.
  - by rewrite app_nil_r.
  - unfold mbind, M_bind. rewrite (body_step σ l) by done.
    destruct (bool_decide (code_of w ∈ l)); [|by apply IH].
    simpl. destruct (stock_of w) as [v|e]; [|done].
    rewrite (IH _ (remove_first (code_of w) l)) by apply set_heap_lookup.
    destruct (collect stock_of _); simpl; [|done].
    by rewrite <- app_assoc.
Qed.

Lemma stocks_loop_state ws : ∀ σ l acc stocks σ',
  heap σ !! r = Some l →
  for_each ws acc body σ = (Ok stocks, σ') →
  σ' = set_heap (<[r := working ws l]> (heap σ)) σ.
Proof.
  induction ws as [|w ws IH]; intros σ l acc stocks σ' Hr; simpl.
  - intros [= _ <-]. by rewrite set_heap_same.
  - unfold mbind, M_bind. rewrite (body_step σ l) by done.
    destruct (bool_decide (code_of w ∈ l)); [|by apply IH].
    destruct (stock_of w) as [v|e]; [|done].
    intros Hrun. eapply IH in Hrun; [|apply set_heap_lookup].
    rewrite Hrun. simpl. unfold set_heap. simpl. by rewrite insert_insert_eq.
Qed.

(** The whole of [create_stocks]: the first loop, then one zero
    entry for each offer id left in the list. *)
Lemma stocks_run ws σ l :
  heap σ !! r = Some l →
  let run := (stocks ← for_each ws [] body;
              remaining ← load r;
              for_each remaining stocks
                (λ stocks offer_id, mret (stocks ++ [mk (offer_id, 0)]))) σ in
  run.1 = res_map (λ ps, (mk <$> ps) ++ ((λ o, mk (o, 0)) <$> working ws l))
                  (collect stock_of (matched ws l))
  ∧ (∀ stocks, run.1 = Ok stocks → run.2 = set_heap (<[r := working ws l]> (heap σ)) σ).
Proof.
  intros Hr. simpl. unfold mbind, M_bind.
  pose proof (stocks_loop_result ws σ l [] Hr) as Hres.
  pose proof (stocks_loop_state ws σ l []) as Hst.
  destruct (for_each ws [] body σ) as [[stocks|e] σ1]; simpl in *.
  - specialize (Hst stocks σ1 Hr eq_refl). subst σ1.
    unfold load. rewrite set_heap_lookup.
    rewrite (append_loop (λ o, mk (o, 0))). simpl.
    destruct (collect stock_of _); simpl in *; [|done].
    injection Hres as ->. done.
  - destruct (collect stock_of _); simpl in *; [done|]. split; [done|]. done.
Qed.
End stocks_loop.

(** ** Facts about the reference functions *)

Lemma remove_first_sublist x l : remove_first x l `sublist_of` l.
Proof.
  induction l as [|y l IH]; simpl; [done|].
  destruct (decide (y = x)); [by apply sublist_cons | by apply sublist_skip].
Qed.

Lemma remove_first_elem x y l : y ∈ remove_first x l → y ∈ l.
Proof. apply (sublist_subseteq _ _ (remove_first_sublist x l)). Qed.

Lemma remove_first_perm x l : x ∈ l → l ≡ₚ x :: remove_first x l.
Proof.
  induction l as [|y l IH]; simpl; [by intros ?%elem_of_nil|].
  destruct (decide (y = x)) as [->|Hne]; [done|].
  intros [?|Hin]%elem_of_cons; [congruence|].
  rewrite (IH Hin) at 1. apply Permutation_swap.
Qed.

Lemma remove_first_other x y l : y ≠ x → y ∈ l → y ∈ remove_first x l.
Proof.
  intros Hne. induction l as [|z l IH]; simpl; [done|].
  destruct (decide (z = x)) as [->|Hzx].
  - intros [?|?]%elem_of_cons; [congruence|done].
  - intros [->|?]%elem_of_cons; [left | right; auto].
Qed.

Lemma remove_first_NoDup x l : NoDup l → NoDup (remove_first x l) ∧ x ∉ remove_first x l.
Proof.
  induction 1 as [|y l Hy Hl [IH1 IH2]]; simpl; [split; [constructor | by intros ?%elem_of_nil]|].
  destruct (decide (y = x)) as [->|Hne]; [done|]. split.
  - constructor; [|done]. intros Hin. apply Hy.
    by eapply remove_first_elem.
  - intros [?|?]%elem_of_cons; [congruence | done].
Qed.

Lemma working_sublist ws : ∀ l, working ws l `sublist_of` l.
Proof.
  induction ws as [|w ws IH]; intros l; simpl; [done|].
  destruct (bool_decide _); [|done].
  etrans; [apply IH | apply remove_first_sublist].
Qed.

Lemma matched_sublist ws : ∀ l, matched ws l `sublist_of` ws.
Proof.
  induction ws as [|w ws IH]; intros l; simpl; [done|].
  destruct (bool_decide _); [by apply sublist_skip | by apply sublist_cons].
Qed.

Lemma matched_in_list ws : ∀ l w, w ∈ matched ws l → code_of w ∈ l.
Proof.
  induction ws as [|w' ws IH]; intros l w; simpl; [by intros ?%elem_of_nil|].
  case_bool_decide as Hin; [|by apply IH].
  intros [->|Hw]%elem_of_cons; [done|].
  eapply remove_first_elem. by apply IH.
Qed.

Lemma matched_working_perm ws : ∀ l, l ≡ₚ (code_of <$> matched ws l) ++ working ws l.
Proof.
  induction ws as [|w ws IH]; intros l; simpl; [done|].
  case_bool_decide as Hin; [|by apply IH].
  simpl. rewrite <- IH. by apply remove_first_perm.
Qed.

Lemma working_keeps ws : ∀ l o,
  o ∈ l → (∀ w, w ∈ ws → code_of w ≠ o) → o ∈ working ws l.
Proof.
  induction ws as [|w ws IH]; intros l o Ho Hws; simpl; [done|].
  assert (Hrest : ∀ w', w' ∈ ws → code_of w' ≠ o) by (intros; apply Hws; by right).
  destruct (bool_decide _); [|by apply IH].
  apply IH; [|done]. apply remove_first_other; [|done].
  intros ->. by apply (Hws w); [left|].
Qed.


Lemma matched_covers ws : ∀ l w,
  w ∈ ws → code_of w ∈ l → code_of w ∈ (code_of <$> matched ws l).
Proof.
  induction ws as [|w1 ws IH]; intros l w; simpl; [by intros ?%elem_of_nil|].
  intros [->|Hw]%elem_of_cons Hin.
  - rewrite bool_decide_eq_true_2 by done. by left.
  - case_bool_decide as H1; [|by apply IH].
    simpl. destruct (decide (code_of w = code_of w1)) as [->|Hne]; [by left|].
    right. apply IH; [done|]. by apply remove_first_other.
Qed.

Lemma matched_NoDup ws : ∀ l, NoDup l → NoDup (code_of <$> matched ws l).
Proof.
  induction ws as [|w ws IH]; intros l Hl; simpl; [constructor|].
  case_bool_decide as Hin; [|by apply IH].
  destruct (remove_first_NoDup (code_of w) l Hl) as [Hnd Hnot].
  simpl. constructor; [|by apply IH].
  intros [w' [Heq Hw']]%list_elem_of_fmap. apply Hnot.
  apply (matched_in_list ws) in Hw'. congruence.
Qed.

Section collect.
Context {V : Type} (f : dict → res V).

Lemma collect_Forall2 hs : ∀ ps,
  collect f hs = Ok ps → Forall2 (λ w p, p.1 = code_of w ∧ f w = Ok p.2) hs ps.
Proof.
  induction hs as [|w hs IH]; intros ps; simpl.
  - intros [= <-]. constructor.
  - destruct (f w) as [v|] eqn:Hv; [|done].
    destruct (collect f hs) as [ps'|]; [|done].
    intros [= <-]. constructor; [done | by apply IH].
Qed.

Lemma collect_codes hs ps : collect f hs = Ok ps → ps.*1 = code_of <$> hs.
Proof.
  intros H%collect_Forall2. induction H as [|w p hs ps [Hp _] _ IH]; csimpl; [done|].
  by rewrite Hp, IH.
Qed.


Lemma collect_ok hs :
  Forall (λ w, ∃ v, f w = Ok v) hs → ∃ ps, collect f hs = Ok ps.
Proof.
  induction 1 as [|w hs [v Hv] _ [ps IH]]; simpl; [eauto|].
  rewrite Hv, IH. eauto.
Qed.
End collect.

Lemma bucket_table_sound quantity v : bucket quantity = Ok v → bucket_table quantity v.
Proof.
  unfold bucket, bucket_table.
  destruct (String.eqb_spec (py_str quantity) ">10") as [->|H10].
  { intros [= <-]. by repeat split. }
  destruct (String.eqb_spec (py_str quantity) "1") as [->|H1].
  { intros [= <-]. by repeat split. }
  intros Hint. by repeat split.
Qed.


Section prices_loop.
Context {V E : Type} (f : dict → res V) (mk : string * V → E) (r : loc).
Variable body : list E → dict → M (list E).
Hypothesis body_step : ∀ σ l prices w,
  heap σ !! r = Some l →
  body prices w σ
  = if bool_decide (code_of w ∈ l) then
      match f w with
      | Ok v => (Ok (prices ++ [mk (code_of w, v)]), σ)
      | Raise e => (Raise e, σ)
      end
    else (Ok prices, σ).

(** The loop of [create_prices] looks at the records whose code is in
    the list and never writes to the store. *)
Lemma prices_loop_run ws σ l : ∀ acc,
  heap σ !! r = Some l →
  for_each ws acc body σ
  = (res_map (λ ps, acc ++ (mk <$> ps)) (collect f (filter (λ w, code_of w ∈ l) ws)), σ).
Proof.
  induction ws as [|w ws IH]; intros acc Hr; simpl.
  - by rewrite app_nil_r.
  - unfold mbind, M_bind. rewrite (body_step σ l) by done.
    case_bool_decide as Hin.
    + rewrite filter_cons_True by done. simpl.
      destruct (f w) as [v|e]; [|done].
      rewrite IH by done. destruct (collect f _); simpl; [|done].
      by rewrite <- app_assoc.
    + rewrite filter_cons_False by done. by apply IH.
Qed.
End prices_loop.

Lemma seller_prices_body_step r σ l prices w :
  heap σ !! r = Some l →
  Seller.prices_body r prices w σ
  = if bool_decide (code_of w ∈ l) then
      match seller_price_of w with
      | Ok v => (Ok (prices ++ [seller_price (code_of w, v)]), σ)
      | Raise e => (Raise e, σ)
      end
    else (Ok prices, σ).
Proof.
  intros Hr. unfold Seller.prices_body. run_cmd. rewrite Hr. simpl.
  fold (code_of w). destruct (bool_decide _); [|done].
  unfold seller_price_of. by destruct (price_conversion _).
Qed.

Lemma market_prices_body_step r σ l prices w :
  heap σ !! r = Some l →
  Market.prices_body r prices w σ
  = if bool_decide (code_of w ∈ l) then
      match market_price_of w with
      | Ok v => (Ok (prices ++ [market_price (code_of w, v)]), σ)
      | Raise e => (Raise e, σ)
      end
    else (Ok prices, σ).
Proof.
  intros Hr. unfold Market.prices_body. run_cmd. rewrite Hr. simpl.
  fold (code_of w). destruct (bool_decide _); [|done].
  unfold market_price_of. destruct (price_conversion _); [|done].
  by destruct (int_of_string _).
Qed.

(** *** The four functions in closed form *)

Lemma seller_create_stocks_run ws r σ l :
  heap σ !! r = Some l →
  (Seller.create_stocks ws r σ).1
  = res_map (λ ps, (seller_stock <$> ps) ++ ((λ o, seller_stock (o, 0)) <$> working ws l))
            (collect stock_of (matched ws l))
  ∧ (∀ stocks, (Seller.create_stocks ws r σ).1 = Ok stocks →
       (Seller.create_stocks ws r σ).2 = set_heap (<[r := working ws l]> (heap σ)) σ).
Proof.
  intros Hr.
  apply (stocks_run seller_stock r (Seller.stocks_body r)); [|done].
  intros. by apply seller_stocks_body_step.
Qed.

Lemma market_create_stocks_run ws r wh σ l :
  heap σ !! r = Some l →
  (Market.create_stocks ws r wh σ).1
  = res_map (λ ps, (market_stock wh (clock σ +:+ "Z") <$> ps)
                   ++ ((λ o, market_stock wh (clock σ +:+ "Z") (o, 0)) <$> working ws l))
            (collect stock_of (matched ws l))
  ∧ (∀ stocks, (Market.create_stocks ws r wh σ).1 = Ok stocks →
       (Market.create_stocks ws r wh σ).2 = set_heap (<[r := working ws l]> (heap σ)) σ).
Proof.
  intros Hr.
  apply (stocks_run (market_stock wh (clock σ +:+ "Z")) r
           (Market.stocks_body r wh (clock σ +:+ "Z"))); [|done].
  intros. by apply market_stocks_body_step.
Qed.

Lemma seller_create_prices_run ws r σ l :
  heap σ !! r = Some l →
  Seller.create_prices ws r σ
  = (res_map (fmap seller_price) (collect seller_price_of (filter (λ w, code_of w ∈ l) ws)), σ).
Proof.
  intros Hr. unfold Seller.create_prices.
  rewrite (prices_loop_run seller_price_of seller_price r _
             (λ σ l, seller_prices_body_step r σ l) ws σ l []) by done.
  done.
Qed.

Lemma market_create_prices_run ws r σ l :
  heap σ !! r = Some l →
  Market.create_prices ws r σ
  = (res_map (fmap market_price) (collect market_price_of (filter (λ w, code_of w ∈ l) ws)), σ).
Proof.
  intros Hr. unfold Market.create_prices.
  rewrite (prices_loop_run market_price_of market_price r _
             (λ σ l, market_prices_body_step r σ l) ws σ l []) by done.
  done.
Qed.

(** What a normal return of [create_stocks] says about its output and
    about the list object. *)
Lemma seller_create_stocks_ok ws r σ l stocks σ' :
  heap σ !! r = Some l →
  Seller.create_stocks ws r σ = (Ok stocks, σ') →
  ∃ ps, collect stock_of (matched ws l) = Ok ps
        ∧ stocks = (seller_stock <$> ps) ++ ((λ o, seller_stock (o, 0)) <$> working ws l)
        ∧ σ' = set_heap (<[r := working ws l]> (heap σ)) σ.
Proof.
  intros Hr Hrun. destruct (seller_create_stocks_run ws r σ l Hr) as [Hres Hst].
  rewrite Hrun in Hres, Hst. simpl in *.
  destruct (collect stock_of _) as [ps|]; simpl in Hres; [|done].
  exists ps. injection Hres as ->. split_and!; [done..|]. by apply (Hst _ eq_refl).
Qed.

Lemma market_create_stocks_ok ws r wh σ l stocks σ' :
  heap σ !! r = Some l →
  Market.create_stocks ws r wh σ = (Ok stocks, σ') →
  ∃ ps, collect stock_of (matched ws l) = Ok ps
        ∧ stocks = (market_stock wh (clock σ +:+ "Z") <$> ps)
                   ++ ((λ o, market_stock wh (clock σ +:+ "Z") (o, 0)) <$> working ws l)
        ∧ σ' = set_heap (<[r := working ws l]> (heap σ)) σ.
Proof.
  intros Hr Hrun. destruct (market_create_stocks_run ws r wh σ l Hr) as [Hres Hst].
  rewrite Hrun in Hres, Hst. simpl in *.
  destruct (collect stock_of _) as [ps|]; simpl in Hres; [|done].
  exists ps. injection Hres as ->. split_and!; [done..|]. by apply (Hst _ eq_refl).
Qed.

(** [create_stocks] returns normally as soon as the quantity of every
    matched record can be bucketed. *)
Lemma create_stocks_returns ws r wh σ l :
  heap σ !! r = Some l →
  Forall (λ w, ∃ v, stock_of w = Ok v) (matched ws l) →
  (∃ stocks σ', Seller.create_stocks ws r σ = (Ok stocks, σ'))
  ∧ (∃ stocks σ', Market.create_stocks ws r wh σ = (Ok stocks, σ')).
Proof.
  intros Hr [ps Hps]%collect_ok.
  destruct (seller_create_stocks_run ws r σ l Hr) as [Hs _].
  destruct (market_create_stocks_run ws r wh σ l Hr) as [Hm _].
  rewrite Hps in Hs, Hm. simpl in *. split.
  - destruct (Seller.create_stocks ws r σ) as [res σ']. simpl in Hs. subst res. eauto.
  - destruct (Market.create_stocks ws r wh σ) as [res σ']. simpl in Hm. subst res. eauto.
Qed.

(** ** Price normalisation *)

Lemma split_on_head sep s : ∃ p ps, split_on sep s = p :: ps.
Proof.
  destruct s as [|c s]; simpl; [eauto|].
  destruct (Ascii.eqb c sep); [eauto|]. destruct (split_on sep s); eauto.
Qed.

(** The first piece of a split has no separator in it. *)
Lemma split_on_first sep s p ps :
  split_on sep s = p :: ps → ∀ c, In c (list_ascii_of_string p) → c ≠ sep.
Proof.
  revert p ps. induction s as [|a s IH]; intros p ps; simpl.
  - intros [= <- <-] c [].
  - destruct (Ascii.eqb_spec a sep) as [->|Hne].
    + intros [= <- <-] c [].
    + destruct (split_on sep s) as [|q qs] eqn:Hs.
      * intros [= <- <-] c [<-|[]]. done.
      * intros [= <- <-] c [<-|Hc]; [done|]. by eapply IH.
Qed.

(** The first piece is the text up to the first separator, or the
    whole string when there is none. *)
Lemma split_on_prefix sep s p ps :
  split_on sep s = p :: ps →
  (∃ t, s = p +:+ String sep t) ∨ (s = p ∧ ps = []).
Proof.
  revert p ps. induction s as [|a s IH]; intros p ps; simpl.
  - intros [= <- <-]. by right.
  - destruct (Ascii.eqb_spec a sep) as [->|Hne].
    + intros [= <- <-]. left. by exists s.
    + destruct (split_on sep s) as [|q qs] eqn:Hs.
      * destruct (split_on_head sep s) as (q & qs & Hq). congruence.
      * intros [= <- <-]. destruct (IH q qs eq_refl) as [[t ->]|[-> ->]].
        -- left. by exists t.
        -- by right.
Qed.

Lemma strip_non_digits_all_digits s : all_digits (strip_non_digits s) = true.
Proof.
  induction s as [|c s IH]; simpl; [done|].
  destruct (is_digit c) eqn:Hc; simpl; [by rewrite Hc|done].
Qed.

Lemma strip_non_digits_id s : all_digits s = true → strip_non_digits s = s.
Proof.
  induction s as [|c s IH]; simpl; [done|].
  intros [Hc Hs]%andb_true_iff. rewrite Hc. by rewrite IH.
Qed.

(** [price_conversion] never raises on a [str], and returns digits. *)
Lemma price_conversion_digits s :
  ∃ d, price_conversion (PStr s) = Ok d ∧ all_digits d = true.
Proof.
  unfold price_conversion. destruct (split_on_head "." s) as (p & ps & ->). simpl.
  eexists. split; [done|]. apply strip_non_digits_all_digits.
Qed.

Lemma is_digit_facts c :
  is_digit c = true →
  is_space_char c = false ∧ Ascii.eqb c "-" = false ∧ Ascii.eqb c "+" = false
  ∧ 0 ≤ digit_val c ≤ 9.
Proof.
  destruct c as [[] [] [] [] [] [] [] []]; vm_compute; intros; try discriminate;
    repeat split; discriminate.
Qed.

Lemma rstrip_spaces_digits s : all_digits s = true → rstrip_spaces s = s.
Proof.
  induction s as [|c s IH]; simpl; [done|].
  intros [Hc Hs]%andb_true_iff. rewrite (IH Hs).
  destruct s; [|done]. by destruct (is_digit_facts c Hc) as (-> & _).
Qed.

Lemma digits_value_digits s : ∀ acc b,
  all_digits s = true → 0 ≤ acc → (s ≠ EmptyString ∨ b = true) →
  ∃ n, digits_value acc b s = Some n ∧ 0 ≤ n.
Proof.
  induction s as [|c s IH]; intros acc b Hs Hacc Hne; simpl.
  - destruct Hne as [?| ->]; [done|]. eauto.
  - apply andb_true_iff in Hs as [Hc Hs]. rewrite Hc.
    destruct (is_digit_facts c Hc) as (_ & _ & _ & Hval).
    apply IH; [done|lia|by right].
Qed.

Lemma count_digits_all_digits d :
  all_digits d = true → count_digits d = Z.of_nat (String.length d).
Proof.
  induction d as [|c d IH]; simpl; [done|].
  intros [Hc Hd]%andb_true_iff. rewrite Hc, (IH Hd). lia.
Qed.

(** [int] on a string of digits: a natural number when there are
    between 1 and [max_str_digits] of them, [ValueError] otherwise. *)
Lemma int_of_digits d :
  all_digits d = true →
  (d ≠ EmptyString ∧ Z.of_nat (String.length d) ≤ max_str_digits
   ∧ ∃ n, int_of_string d = Ok n ∧ 0 ≤ n)
  ∨ ((d = EmptyString ∨ max_str_digits < Z.of_nat (String.length d))
     ∧ int_of_string d = Raise ValueError).
Proof.
  intros Hd. destruct d as [|c d]; [right; split; [by left|done]|].
  unfold int_of_string.
  pose proof Hd as [Hc Hrest]%andb_true_iff.
  destruct (is_digit_facts c Hc) as (Hsp & Hminus & Hplus & _).
  replace (lstrip_spaces (String c d)) with (String c d) by (simpl; by rewrite Hsp).
  rewrite rstrip_spaces_digits by done. rewrite Hminus, Hplus.
  destruct (digits_value_digits (String c d) 0 false Hd) as (n & -> & Hn); [lia|by left|].
  rewrite (count_digits_all_digits _ Hd).
  destruct (Z.ltb_spec max_str_digits (Z.of_nat (String.length (String c d)))).
  - right. split; [by right|done].
  - left. split_and!; [done..|]. eauto.
Qed.

(** The price that market.py sends is never negative. *)
Lemma market_price_nonneg w v : market_price_of w = Ok v → 0 ≤ v.
Proof.
  unfold market_price_of. destruct (dict_get w "Цена") as [| |s| |]; simpl; try done.
  destruct (price_conversion_digits s) as (d & Hd & Hdig).
  unfold price_conversion in Hd. rewrite Hd.
  destruct (int_of_digits d Hdig) as [(_ & _ & n & -> & Hn)|[_ ->]]; [|done].
  by intros [= <-].
Qed.

(** ** Stock reconciliation *)

(** C1. Every offer id of the catalogue list that is the code of no
    record of the snapshot is in the output of [create_stocks] with
    stock 0, in seller.py and in market.py.  For records with codes
    "A" and "B" and the catalogue "A", "B", "C" the output is exactly
    the three entries A, B (with their bucketed values) and C with 0. *)
Theorem stock_completeness ws r wh σ l o :
  heap σ !! r = Some l →
  o ∈ l →
  (∀ w, w ∈ ws → code_of w ≠ o) →
  (∀ stocks σ', Seller.create_stocks ws r σ = (Ok stocks, σ') →
     {| Seller.offer_id := o; Seller.stock := 0 |} ∈ stocks)
  ∧ (∀ stocks σ', Market.create_stocks ws r wh σ = (Ok stocks, σ') →
       {| Market.sku := o; Market.warehouseId := wh;
          Market.items := [{| Market.count := 0; Market.type := "FIT";
                              Market.updatedAt := clock σ +:+ "Z" |}] |} ∈ stocks)
  ∧ (∀ wa wb va vb,
       code_of wa = "A" → code_of wb = "B" →
       stock_of wa = Ok va → stock_of wb = Ok vb →
       ∀ ra σa, heap σa !! ra = Some ["A"; "B"; "C"] →
       (Seller.create_stocks [wa; wb] ra σa).1
       = Ok [ {| Seller.offer_id := "A"; Seller.stock := va |};
              {| Seller.offer_id := "B"; Seller.stock := vb |};
              {| Seller.offer_id := "C"; Seller.stock := 0 |} ]
       ∧ (Market.create_stocks [wa; wb] ra wh σa).1
         = Ok [ market_stock wh (clock σa +:+ "Z") ("A", va);
                market_stock wh (clock σa +:+ "Z") ("B", vb);
                market_stock wh (clock σa +:+ "Z") ("C", 0) ]).
Proof.
  intros Hr Ho Hws.
  assert (Hkept : o ∈ working ws l) by by apply working_keeps.
  split_and!.
  - intros stocks σ' (ps & _ & -> & _)%(seller_create_stocks_ok _ _ _ l); [|done].
    apply elem_of_app. right.
    by apply (list_elem_of_fmap_2 (λ o, seller_stock (o, 0))).
  - intros stocks σ' (ps & _ & -> & _)%(market_create_stocks_ok _ _ _ _ l); [|done].
    apply elem_of_app. right.
    by apply (list_elem_of_fmap_2 (λ o, market_stock wh (clock σ +:+ "Z") (o, 0))).
  - intros wa wb va vb Ha Hb Hva Hvb ra σa Hra.
    destruct (seller_create_stocks_run [wa; wb] ra σa _ Hra) as [-> _].
    destruct (market_create_stocks_run [wa; wb] ra wh σa _ Hra) as [-> _].
    simpl. rewrite Ha. simpl. rewrite Hb. simpl. rewrite Hva, Hvb. simpl.
    by rewrite Ha, Hb.
Qed.

Lemma stock_completeness_witness :
  heap (sample_world ["123"; "456"]) !! sample_ref = Some ["123"; "456"]
  ∧ {| Seller.offer_id := "456"; Seller.stock := 0 |}
    ∈ [ {| Seller.offer_id := "123"; Seller.stock := 10 |};
        {| Seller.offer_id := "456"; Seller.stock := 0 |} ].
Proof.
  split; [reflexivity|].
  refine (proj1 (stock_completeness [watch_123] sample_ref "WH"
                   (sample_world ["123"; "456"]) ["123"; "456"] "456" _ _ _)
            _ (Seller.create_stocks [watch_123] sample_ref (sample_world ["123"; "456"])).2 _).
  - reflexivity.
  - right. left.
  - intros w Hw. apply list_elem_of_singleton in Hw. subst w.
    intros H. vm_compute in H. discriminate H.
  - vm_compute. reflexivity.
Defined.

(** C7. The list returned by [create_stocks] is the entries of the
    matched records, in the order of the snapshot, followed by one zero
    entry for each offer id that no record consumed, in the order of
    the catalogue list.  [hits] are the matched records (a subsequence
    of the snapshot), [rest] the unmatched offer ids (a subsequence of
    the catalogue); together they account for the whole catalogue.
    Both functions do return that list as soon as the quantity of every
    matched record can be bucketed.  For the snapshot C, A, X and the
    catalogue A, B, C, D the output is C, A, B, D in seller.py and in
    market.py. *)
Theorem stock_output_order ws r wh σ l :
  heap σ !! r = Some l →
  (∀ stocks σ', Seller.create_stocks ws r σ = (Ok stocks, σ') →
     ∃ hits ps rest,
       stocks = ((λ p, {| Seller.offer_id := p.1; Seller.stock := p.2 |}) <$> ps)
                ++ ((λ o, {| Seller.offer_id := o; Seller.stock := 0 |}) <$> rest)
       ∧ hits = matched ws l ∧ rest = working ws l
       ∧ Forall2 (λ w p, p.1 = code_of w ∧ stock_of w = Ok p.2) hits ps
       ∧ hits `sublist_of` ws
       ∧ rest `sublist_of` l
       ∧ l ≡ₚ (code_of <$> hits) ++ rest
       ∧ (∀ w, w ∈ ws → code_of w ∈ l → code_of w ∈ (code_of <$> hits)))
  ∧ (∀ stocks σ', Market.create_stocks ws r wh σ = (Ok stocks, σ') →
       ∃ hits ps rest,
         stocks = (market_stock wh (clock σ +:+ "Z") <$> ps)
                  ++ ((λ o, market_stock wh (clock σ +:+ "Z") (o, 0)) <$> rest)
         ∧ hits = matched ws l ∧ rest = working ws l
         ∧ Forall2 (λ w p, p.1 = code_of w ∧ stock_of w = Ok p.2) hits ps
         ∧ hits `sublist_of` ws
         ∧ rest `sublist_of` l
         ∧ l ≡ₚ (code_of <$> hits) ++ rest
         ∧ (∀ w, w ∈ ws → code_of w ∈ l → code_of w ∈ (code_of <$> hits)))
  ∧ (Forall (λ w, ∃ v, stock_of w = Ok v) (matched ws l) →
     ∃ ps, Forall2 (λ w p, p.1 = code_of w ∧ stock_of w = Ok p.2) (matched ws l) ps
           ∧ (Seller.create_stocks ws r σ).1
             = Ok (((λ p, {| Seller.offer_id := p.1; Seller.stock := p.2 |}) <$> ps)
                   ++ ((λ o, {| Seller.offer_id := o; Seller.stock := 0 |}) <$> working ws l))
           ∧ (Market.create_stocks ws r wh σ).1
             = Ok ((market_stock wh (clock σ +:+ "Z") <$> ps)
                   ++ ((λ o, market_stock wh (clock σ +:+ "Z") (o, 0)) <$> working ws l)))
  ∧ (Seller.create_stocks
       [watch_row (PStr "C") (PStr "3") PNone; watch_row (PStr "A") (PStr ">10") PNone;
        watch_row (PStr "X") (PStr "5") PNone]
       sample_ref (sample_world ["A"; "B"; "C"; "D"])).1
    = Ok [ {| Seller.offer_id := "C"; Seller.stock := 3 |};
           {| Seller.offer_id := "A"; Seller.stock := 100 |};
           {| Seller.offer_id := "B"; Seller.stock := 0 |};
           {| Seller.offer_id := "D"; Seller.stock := 0 |} ]
  ∧ (Market.create_stocks
       [watch_row (PStr "C") (PStr "3") PNone; watch_row (PStr "A") (PStr ">10") PNone;
        watch_row (PStr "X") (PStr "5") PNone]
       sample_ref "WH" (sample_world ["A"; "B"; "C"; "D"])).1
    = Ok [ market_stock "WH" "2024-05-01T10:00:00Z" ("C", 3);
           market_stock "WH" "2024-05-01T10:00:00Z" ("A", 100);
           market_stock "WH" "2024-05-01T10:00:00Z" ("B", 0);
           market_stock "WH" "2024-05-01T10:00:00Z" ("D", 0) ].
Proof.
  intros Hr. split_and!.
  - intros stocks σ' (ps & Hps & -> & _)%(seller_create_stocks_ok _ _ _ l); [|done].
    exists (matched ws l), ps, (working ws l). split_and!; try done.
    + by apply collect_Forall2.
    + apply matched_sublist.
    + apply working_sublist.
    + apply matched_working_perm.
    + intros w. apply matched_covers.
  - intros stocks σ' (ps & Hps & -> & _)%(market_create_stocks_ok _ _ _ _ l); [|done].
    exists (matched ws l), ps, (working ws l). split_and!; try done.
    + by apply collect_Forall2.
    + apply matched_sublist.
    + apply working_sublist.
    + apply matched_working_perm.
    + intros w. apply matched_covers.
  - intros [ps Hps]%collect_ok. exists ps.
    destruct (seller_create_stocks_run ws r σ l Hr) as [-> _].
    destruct (market_create_stocks_run ws r wh σ l Hr) as [-> _].
    rewrite Hps. split_and!; [by apply collect_Forall2|done..].
  - vm_compute. reflexivity.
  - vm_compute. reflexivity.
Qed.

Lemma stock_output_order_witness :
  (∃ hits ps rest,
    [ {| Seller.offer_id := "123"; Seller.stock := 10 |};
      {| Seller.offer_id := "456"; Seller.stock := 0 |} ]
    = ((λ p, {| Seller.offer_id := p.1; Seller.stock := p.2 |}) <$> ps)
      ++ ((λ o, {| Seller.offer_id := o; Seller.stock := 0 |}) <$> rest)
    ∧ hits = matched [watch_123] ["123"; "456"] ∧ rest = working [watch_123] ["123"; "456"]
    ∧ Forall2 (λ w p, p.1 = code_of w ∧ stock_of w = Ok p.2) hits ps
    ∧ hits `sublist_of` [watch_123]
    ∧ rest `sublist_of` ["123"; "456"]
    ∧ ["123"; "456"] ≡ₚ (code_of <$> hits) ++ rest
    ∧ (∀ w, w ∈ [watch_123] → code_of w ∈ ["123"; "456"] → code_of w ∈ (code_of <$> hits)))
  ∧ (∃ hits ps rest,
      [ market_stock "WH" "2024-05-01T10:00:00Z" ("123", 10);
        market_stock "WH" "2024-05-01T10:00:00Z" ("456", 0) ]
      = (market_stock "WH" (clock (sample_world ["123"; "456"]) +:+ "Z") <$> ps)
        ++ ((λ o, market_stock "WH" (clock (sample_world ["123"; "456"]) +:+ "Z") (o, 0))
              <$> rest)
      ∧ hits = matched [watch_123] ["123"; "456"] ∧ rest = working [watch_123] ["123"; "456"]
      ∧ Forall2 (λ w p, p.1 = code_of w ∧ stock_of w = Ok p.2) hits ps
      ∧ hits `sublist_of` [watch_123]
      ∧ rest `sublist_of` ["123"; "456"]
      ∧ ["123"; "456"] ≡ₚ (code_of <$> hits) ++ rest
      ∧ (∀ w, w ∈ [watch_123] → code_of w ∈ ["123"; "456"] → code_of w ∈ (code_of <$> hits))).
Proof.
  pose proof (stock_output_order [watch_123] sample_ref "WH"
                (sample_world ["123"; "456"]) ["123"; "456"] eq_refl)
    as (Hseller & Hmarket & _).
  split.
  - apply (Hseller _ (Seller.create_stocks [watch_123] sample_ref
                        (sample_world ["123"; "456"])).2).
    vm_compute. reflexivity.
  - apply (Hmarket _ (Market.create_stocks [watch_123] sample_ref "WH"
                        (sample_world ["123"; "456"])).2).
    vm_compute. reflexivity.
Defined.

(** The entries of the matched records come first in the output. *)
Lemma take_matched_entries {E : Type} (mk : string * Z → E) (zeros : list E) ws l ps :
  collect stock_of (matched ws l) = Ok ps →
  take (length (matched ws l)) ((mk <$> ps) ++ zeros) = mk <$> ps.
Proof.
  intros Hlen%collect_Forall2%Forall2_length.
  rewrite Hlen. apply take_app_length'. by rewrite length_fmap.
Qed.

(** C3. The stock value of every matched record follows the bucketing
    table: 100 for the quantity ">10", 0 for "1", and [int] of the cell
    otherwise, in seller.py and in market.py alike.  This holds for
    each pass of the loop over a record whose code is in the list, and
    for the output as a whole, whose first entries are those of the
    matched records in order.  A quantity "7" gives stock 7. *)
Theorem quantity_bucketing ws r wh σ l :
  heap σ !! r = Some l →
  (∀ stocks σ', Seller.create_stocks ws r σ = (Ok stocks, σ') →
     Forall2 (λ w e, Seller.offer_id e = code_of w
                     ∧ bucket_table (dict_get w "Количество") (Seller.stock e))
             (matched ws l) (take (length (matched ws l)) stocks))
  ∧ (∀ stocks σ', Market.create_stocks ws r wh σ = (Ok stocks, σ') →
       Forall2 (λ w e, Market.sku e = code_of w
                       ∧ ∃ c, Market.items e = [c]
                              ∧ bucket_table (dict_get w "Количество") (Market.count c))
               (matched ws l) (take (length (matched ws l)) stocks))
  ∧ (∀ acc w date v,
       code_of w ∈ l →
       (py_str (dict_get w "Количество") = ">10" ∧ v = 100
        ∨ py_str (dict_get w "Количество") = "1" ∧ v = 0
        ∨ py_str (dict_get w "Количество") ≠ ">10" ∧ py_str (dict_get w "Количество") ≠ "1"
          ∧ py_int (dict_get w "Количество") = Ok v) →
       (Seller.stocks_body r acc w σ).1
       = Ok (acc ++ [{| Seller.offer_id := code_of w; Seller.stock := v |}])
       ∧ ∀ macc, (Market.stocks_body r wh date macc w σ).1
                 = Ok (macc ++ [market_stock wh date (code_of w, v)]))
  ∧ (Seller.create_stocks
       [watch_row (PStr "A") (PStr ">10") PNone; watch_row (PStr "B") (PStr "1") PNone;
        watch_row (PStr "C") (PStr "7") PNone]
       sample_ref (sample_world ["A"; "B"; "C"])).1
    = Ok [ {| Seller.offer_id := "A"; Seller.stock := 100 |};
           {| Seller.offer_id := "B"; Seller.stock := 0 |};
           {| Seller.offer_id := "C"; Seller.stock := 7 |} ]
  ∧ res_map (fmap untimed)
      (Market.create_stocks
         [watch_row (PStr "A") (PStr ">10") PNone; watch_row (PStr "B") (PStr "1") PNone;
          watch_row (PStr "C") (PStr "7") PNone]
         sample_ref "WH" (sample_world ["A"; "B"; "C"])).1
    = Ok [ ("A", "WH", [(100, "FIT")]); ("B", "WH", [(0, "FIT")]); ("C", "WH", [(7, "FIT")]) ].
Proof.
  intros Hr. split_and!.
  - intros stocks σ' (ps & Hps & -> & _)%(seller_create_stocks_ok _ _ _ l); [|done].
    rewrite (take_matched_entries seller_stock) by done.
    apply Forall2_fmap_r. eapply Forall2_impl; [by apply collect_Forall2|].
    intros w p [Hcode Hv]. split; [done|]. by apply bucket_table_sound.
  - intros stocks σ' (ps & Hps & -> & _)%(market_create_stocks_ok _ _ _ _ l); [|done].
    rewrite (take_matched_entries (market_stock wh (clock σ +:+ "Z"))) by done.
    apply Forall2_fmap_r. eapply Forall2_impl; [by apply collect_Forall2|].
    intros w p [Hcode Hv]. split; [done|].
    eexists. split; [done|]. by apply bucket_table_sound.
  - intros acc w date v Hin Hcases.
    assert (Hv : stock_of w = Ok v).
    { unfold stock_of, bucket.
      destruct Hcases as [[-> ->]|[[-> ->]|(H10 & H1 & Hint)]]; [done..|].
      destruct (String.eqb_spec (py_str (dict_get w "Количество")) ">10"); [done|].
      destruct (String.eqb_spec (py_str (dict_get w "Количество")) "1"); done. }
    split; [|intros macc].
    + rewrite (seller_stocks_body_step r σ l) by done.
      rewrite bool_decide_eq_true_2 by done. by rewrite Hv.
    + rewrite (market_stocks_body_step wh date r σ l) by done.
      rewrite bool_decide_eq_true_2 by done. by rewrite Hv.
  - vm_compute. reflexivity.
  - vm_compute. reflexivity.
Qed.

Lemma quantity_bucketing_witness :
  Forall2 (λ w e, Seller.offer_id e = code_of w
                  ∧ bucket_table (dict_get w "Количество") (Seller.stock e))
          (matched [watch_123] ["123"; "456"])
          (take (length (matched [watch_123] ["123"; "456"]))
                [ {| Seller.offer_id := "123"; Seller.stock := 10 |};
                  {| Seller.offer_id := "456"; Seller.stock := 0 |} ]).
Proof.
  refine (proj1 (quantity_bucketing [watch_123] sample_ref "WH"
                   (sample_world ["123"; "456"]) ["123"; "456"] _)
            _ (Seller.create_stocks [watch_123] sample_ref (sample_world ["123"; "456"])).2 _).
  - reflexivity.
  - vm_compute. reflexivity.
Defined.




(** ** Offer ids of the output *)

Lemma seller_stock_ids ps rest :
  Seller.offer_id <$> ((seller_stock <$> ps) ++ ((λ o, seller_stock (o, 0)) <$> rest))
  = ps.*1 ++ rest.
Proof.
  rewrite fmap_app, <- !list_fmap_compose.
  f_equal. by rewrite list_fmap_id.
Qed.

Lemma market_stock_ids wh date ps rest :
  Market.sku <$> ((market_stock wh date <$> ps) ++ ((λ o, market_stock wh date (o, 0)) <$> rest))
  = ps.*1 ++ rest.
Proof.
  rewrite fmap_app, <- !list_fmap_compose.
  f_equal. by rewrite list_fmap_id.
Qed.

Lemma seller_create_prices_ok ws r σ l prices σ' :
  heap σ !! r = Some l →
  Seller.create_prices ws r σ = (Ok prices, σ') →
  Seller.price_offer_id <$> prices = code_of <$> filter (λ w, code_of w ∈ l) ws ∧ σ' = σ.
Proof.
  intros Hr. rewrite (seller_create_prices_run ws r σ l) by done.
  destruct (collect seller_price_of _) as [ps|] eqn:Hps; simpl; [|done].
  intros [= <- <-]. split; [|done].
  rewrite <- list_fmap_compose. by apply collect_codes in Hps.
Qed.

Lemma market_create_prices_ok ws r σ l prices σ' :
  heap σ !! r = Some l →
  Market.create_prices ws r σ = (Ok prices, σ') →
  Market.id <$> prices = code_of <$> filter (λ w, code_of w ∈ l) ws ∧ σ' = σ.
Proof.
  intros Hr. rewrite (market_create_prices_run ws r σ l) by done.
  destruct (collect market_price_of _) as [ps|] eqn:Hps; simpl; [|done].
  intros [= <- <-]. split; [|done].
  rewrite <- list_fmap_compose. by apply collect_codes in Hps.
Qed.

Lemma filtered_codes_in_list (ws : list dict) (l : list string) (o : string) :
  o ∈ (code_of <$> filter (λ w, code_of w ∈ l) ws) → o ∈ l ∧ ∃ w, w ∈ ws ∧ code_of w = o.
Proof.
  intros (w & -> & [Hin Hw]%list_elem_of_filter)%list_elem_of_fmap. eauto.
Qed.

(** C2, as the code has it.  The offer ids of the output of
    [create_stocks] are a rearrangement of the catalogue list, so they
    all come from it and repeat only where the catalogue does, whatever
    the snapshot.  The offer ids of the output of [create_prices] are
    the codes of the records whose code is in the catalogue, in order,
    so they all come from it, and are free of duplicates when those
    codes are pairwise distinct. *)
Theorem offer_ids_within_catalogue ws r wh σ l :
  heap σ !! r = Some l →
  (∀ stocks σ', Seller.create_stocks ws r σ = (Ok stocks, σ') →
     Seller.offer_id <$> stocks ≡ₚ l
     ∧ (∀ e, e ∈ stocks → Seller.offer_id e ∈ l)
     ∧ (NoDup l → NoDup (Seller.offer_id <$> stocks)))
  ∧ (∀ stocks σ', Market.create_stocks ws r wh σ = (Ok stocks, σ') →
       Market.sku <$> stocks ≡ₚ l
       ∧ (∀ e, e ∈ stocks → Market.sku e ∈ l)
       ∧ (NoDup l → NoDup (Market.sku <$> stocks)))
  ∧ (∀ prices σ', Seller.create_prices ws r σ = (Ok prices, σ') →
       Seller.price_offer_id <$> prices = code_of <$> filter (λ w, code_of w ∈ l) ws
       ∧ (∀ p, p ∈ prices → Seller.price_offer_id p ∈ l)
       ∧ (NoDup (code_of <$> filter (λ w, code_of w ∈ l) ws) →
          NoDup (Seller.price_offer_id <$> prices)))
  ∧ (∀ prices σ', Market.create_prices ws r σ = (Ok prices, σ') →
       Market.id <$> prices = code_of <$> filter (λ w, code_of w ∈ l) ws
       ∧ (∀ p, p ∈ prices → Market.id p ∈ l)
       ∧ (NoDup (code_of <$> filter (λ w, code_of w ∈ l) ws) →
          NoDup (Market.id <$> prices))).
Proof.
  intros Hr. split_and!.
  - intros stocks σ' (ps & Hps & -> & _)%(seller_create_stocks_ok _ _ _ l); [|done].
    assert (Hperm : Seller.offer_id <$> (seller_stock <$> ps)
                      ++ ((λ o, seller_stock (o, 0)) <$> working ws l) ≡ₚ l).
    { rewrite seller_stock_ids, (collect_codes _ _ _ Hps). symmetry. apply matched_working_perm. }
    split_and!; [done| |].
    + intros e He. rewrite <- Hperm. by apply list_elem_of_fmap_2.
    + intros Hnd. by rewrite Hperm.
  - intros stocks σ' (ps & Hps & -> & _)%(market_create_stocks_ok _ _ _ _ l); [|done].
    assert (Hperm : Market.sku <$> (market_stock wh (clock σ +:+ "Z") <$> ps)
                      ++ ((λ o, market_stock wh (clock σ +:+ "Z") (o, 0)) <$> working ws l) ≡ₚ l).
    { rewrite market_stock_ids, (collect_codes _ _ _ Hps). symmetry. apply matched_working_perm. }
    split_and!; [done| |].
    + intros e He. rewrite <- Hperm. by apply list_elem_of_fmap_2.
    + intros Hnd. by rewrite Hperm.
  - intros prices σ' [Hids _]%(seller_create_prices_ok _ _ _ l); [|done].
    split_and!; [done| |by rewrite Hids].
    intros p Hp. apply (filtered_codes_in_list ws). rewrite <- Hids.
    by apply list_elem_of_fmap_2.
  - intros prices σ' [Hids _]%(market_create_prices_ok _ _ _ l); [|done].
    split_and!; [done| |by rewrite Hids].
    intros p Hp. apply (filtered_codes_in_list ws). rewrite <- Hids.
    by apply list_elem_of_fmap_2.
Qed.

Lemma offer_ids_within_catalogue_witness :
  Seller.offer_id <$> [ {| Seller.offer_id := "123"; Seller.stock := 10 |};
                        {| Seller.offer_id := "456"; Seller.stock := 0 |} ]
    ≡ₚ ["123"; "456"]
  ∧ (∀ e, e ∈ [ {| Seller.offer_id := "123"; Seller.stock := 10 |};
                {| Seller.offer_id := "456"; Seller.stock := 0 |} ] →
          Seller.offer_id e ∈ ["123"; "456"])
  ∧ (NoDup ["123"; "456"] →
     NoDup (Seller.offer_id <$> [ {| Seller.offer_id := "123"; Seller.stock := 10 |};
                                  {| Seller.offer_id := "456"; Seller.stock := 0 |} ])).
Proof.
  refine (proj1 (offer_ids_within_catalogue [watch_123] sample_ref "WH"
                   (sample_world ["123"; "456"]) ["123"; "456"] _)
            _ (Seller.create_stocks [watch_123] sample_ref (sample_world ["123"; "456"])).2 _).
  - reflexivity.
  - vm_compute. reflexivity.
Defined.

(** Two records with the same catalogued code give two price entries
    with the same offer id, although the catalogue has no duplicate. *)
Lemma duplicate_codes_duplicate_prices :
  NoDup ["A"]
  ∧ (∃ prices, (Seller.create_prices
                  [watch_row (PStr "A") (PStr "1") (PStr "100.00");
                   watch_row (PStr "A") (PStr "2") (PStr "200.00")]
                  sample_ref (sample_world ["A"])).1 = Ok prices
               ∧ Seller.price_offer_id <$> prices = ["A"; "A"]
               ∧ ¬ NoDup (Seller.price_offer_id <$> prices))
  ∧ (∃ prices, (Market.create_prices
                  [watch_row (PStr "A") (PStr "1") (PStr "100.00");
                   watch_row (PStr "A") (PStr "2") (PStr "200.00")]
                  sample_ref (sample_world ["A"])).1 = Ok prices
               ∧ Market.id <$> prices = ["A"; "A"]
               ∧ ¬ NoDup (Market.id <$> prices)).
Proof.
  split_and!.
  - apply NoDup_singleton.
  - eexists. split; [vm_compute; reflexivity|]. split; [done|].
    intros Hnd. apply NoDup_cons in Hnd as [Hnot _]. apply Hnot. left.
  - eexists. split; [vm_compute; reflexivity|]. split; [done|].
    intros Hnd. apply NoDup_cons in Hnd as [Hnot _]. apply Hnot. left.
Qed.

(** ** Price reconciliation *)

(** C6. [create_prices] emits an entry exactly for the records whose
    code is in the offer-id list, in order.  A record whose code is
    absent changes nothing: the pass of the loop over it returns the
    accumulated list as it was, without raising, and the call gives
    the same result and store as it would without the record.  An
    offer id of the catalogue that is the code of no record has no
    price entry, whereas [create_stocks] gives it a zero entry. *)
Theorem price_asymmetry ws r σ l :
  heap σ !! r = Some l →
  (∀ prices σ', Seller.create_prices ws r σ = (Ok prices, σ') →
     Seller.price_offer_id <$> prices = code_of <$> filter (λ w, code_of w ∈ l) ws)
  ∧ (∀ prices σ', Market.create_prices ws r σ = (Ok prices, σ') →
       Market.id <$> prices = code_of <$> filter (λ w, code_of w ∈ l) ws)
  ∧ (∀ w, code_of w ∉ l →
       (∀ acc, Seller.prices_body r acc w σ = (Ok acc, σ))
       ∧ (∀ acc, Market.prices_body r acc w σ = (Ok acc, σ))
       ∧ (∀ ws1 ws2,
            Seller.create_prices (ws1 ++ w :: ws2) r σ = Seller.create_prices (ws1 ++ ws2) r σ
            ∧ Market.create_prices (ws1 ++ w :: ws2) r σ = Market.create_prices (ws1 ++ ws2) r σ))
  ∧ (∀ o, (∀ w, w ∈ ws → code_of w ≠ o) →
       (∀ prices σ', Seller.create_prices ws r σ = (Ok prices, σ') →
          o ∉ Seller.price_offer_id <$> prices)
       ∧ (∀ prices σ', Market.create_prices ws r σ = (Ok prices, σ') →
            o ∉ Market.id <$> prices))
  ∧ (Seller.create_prices [watch_123] sample_ref (sample_world ["123"; "456"])).1
    = Ok [ {| Seller.auto_action_enabled := "UNKNOWN"; Seller.currency_code := "RUB";
              Seller.price_offer_id := "123"; Seller.old_price := "0";
              Seller.price := "5990" |} ]
  ∧ (Market.create_prices [watch_123] sample_ref (sample_world ["123"; "456"])).1
    = Ok [ {| Market.id := "123";
              Market.price := {| Market.value := 5990; Market.currencyId := "RUR" |} |} ]
  ∧ (Seller.create_stocks [watch_123] sample_ref (sample_world ["123"; "456"])).1
    = Ok [ {| Seller.offer_id := "123"; Seller.stock := 10 |};
           {| Seller.offer_id := "456"; Seller.stock := 0 |} ].
Proof.
  intros Hr. split_and!.
  - intros prices σ' [Hids _]%(seller_create_prices_ok _ _ _ l); done.
  - intros prices σ' [Hids _]%(market_create_prices_ok _ _ _ l); done.
  - intros w Hout. split_and!.
    + intros acc. rewrite (seller_prices_body_step r σ l) by done.
      by rewrite bool_decide_eq_false_2.
    + intros acc. rewrite (market_prices_body_step r σ l) by done.
      by rewrite bool_decide_eq_false_2.
    + intros ws1 ws2.
      rewrite !(seller_create_prices_run _ r σ l), !(market_create_prices_run _ r σ l) by done.
      by rewrite !filter_app, filter_cons_False.
  - intros o Ho. split.
    + intros prices σ' [Hids _]%(seller_create_prices_ok _ _ _ l); [|done].
      rewrite Hids. intros (_ & w & Hw & Hcode)%filtered_codes_in_list. by apply (Ho w).
    + intros prices σ' [Hids _]%(market_create_prices_ok _ _ _ l); [|done].
      rewrite Hids. intros (_ & w & Hw & Hcode)%filtered_codes_in_list. by apply (Ho w).
  - vm_compute. reflexivity.
  - vm_compute. reflexivity.
  - vm_compute. reflexivity.
Qed.

Lemma price_asymmetry_witness :
  Seller.price_offer_id <$> [ {| Seller.auto_action_enabled := "UNKNOWN";
                                 Seller.currency_code := "RUB";
                                 Seller.price_offer_id := "123"; Seller.old_price := "0";
                                 Seller.price := "5990" |} ]
  = code_of <$> filter (λ w, code_of w ∈ ["123"; "456"])
                       [watch_123; watch_row (PStr "789") (PStr "3") PNone].
Proof.
  refine (proj1 (price_asymmetry [watch_123; watch_row (PStr "789") (PStr "3") PNone]
                   sample_ref (sample_world ["123"; "456"]) ["123"; "456"] _)
            _ (sample_world ["123"; "456"]) _).
  - reflexivity.
  - vm_compute. reflexivity.
Defined.

(** ** Determinism *)

Lemma market_stocks_untimed wh date ps rest :
  untimed <$> ((market_stock wh date <$> ps) ++ ((λ o, market_stock wh date (o, 0)) <$> rest))
  = ((λ p, (p.1, wh, [(p.2, "FIT")])) <$> ps) ++ ((λ o, (o, wh, [(0, "FIT")])) <$> rest).
Proof. by rewrite fmap_app, <- !list_fmap_compose. Qed.

Lemma time_stamp_inj s1 : ∀ s2, s1 +:+ "Z" = s2 +:+ "Z" → s1 = s2.
Proof.
  induction s1 as [|c s1 IH]; intros [|c2 s2]; simpl; try done.
  - intros [= _ Hrest]. by destruct s2.
  - intros [= _ Hrest]. by destruct s1.
  - intros [= -> Hrest]. f_equal. by apply IH.
Qed.

(** C9, as the code has it.  The results of [create_stocks] and
    [create_prices] of seller.py and of [create_prices] of market.py
    are determined by the snapshot and the contents of the offer-id
    list: two calls from any two stores in which the list holds the
    same offer ids return the same value, or raise the same exception.
    [create_stocks] of market.py also reads the clock.  Its two results
    agree once the time stamps are left out, they raise the same
    exception if one of them raises, and they agree entirely when the
    clock shows the same second in both calls.  When the two calls
    return and the offer-id list is not empty, the results are equal
    only if the clock shows the same second; for an empty list both
    are the empty list whatever the clock shows. *)
Theorem reconciliation_deterministic ws wh r1 r2 σ1 σ2 l :
  heap σ1 !! r1 = Some l →
  heap σ2 !! r2 = Some l →
  (Seller.create_stocks ws r1 σ1).1 = (Seller.create_stocks ws r2 σ2).1
  ∧ (Seller.create_prices ws r1 σ1).1 = (Seller.create_prices ws r2 σ2).1
  ∧ (Market.create_prices ws r1 σ1).1 = (Market.create_prices ws r2 σ2).1
  ∧ res_map (fmap untimed) (Market.create_stocks ws r1 wh σ1).1
    = res_map (fmap untimed) (Market.create_stocks ws r2 wh σ2).1
  ∧ (clock σ1 = clock σ2 →
     (Market.create_stocks ws r1 wh σ1).1 = (Market.create_stocks ws r2 wh σ2).1)
  ∧ (∀ e, (Market.create_stocks ws r1 wh σ1).1 = Raise e
          ↔ (Market.create_stocks ws r2 wh σ2).1 = Raise e)
  ∧ (∀ stocks, l ≠ [] →
       (Market.create_stocks ws r1 wh σ1).1 = Ok stocks →
       (Market.create_stocks ws r2 wh σ2).1 = Ok stocks →
       clock σ1 = clock σ2)
  ∧ (l = [] →
     (Market.create_stocks ws r1 wh σ1).1 = Ok []
     ∧ (Market.create_stocks ws r2 wh σ2).1 = Ok []).
Proof.
  intros H1 H2.
  destruct (seller_create_stocks_run ws r1 σ1 l H1) as [Hs1 _].
  destruct (seller_create_stocks_run ws r2 σ2 l H2) as [Hs2 _].
  destruct (market_create_stocks_run ws r1 wh σ1 l H1) as [Hm1 _].
  destruct (market_create_stocks_run ws r2 wh σ2 l H2) as [Hm2 _].
  split_and!.
  - by rewrite Hs1, Hs2.
  - by rewrite (seller_create_prices_run ws r1 σ1 l), (seller_create_prices_run ws r2 σ2 l).
  - by rewrite (market_create_prices_run ws r1 σ1 l), (market_create_prices_run ws r2 σ2 l).
  - rewrite Hm1, Hm2. destruct (collect stock_of _); simpl; [|done].
    by rewrite !market_stocks_untimed.
  - intros Hclock. by rewrite Hm1, Hm2, Hclock.
  - intros e. rewrite Hm1, Hm2. by destruct (collect stock_of _).
  - intros stocks Hne. rewrite Hm1, Hm2.
    destruct (collect stock_of (matched ws l)) as [ps|] eqn:Hps; simpl; [|done].
    intros [= <-] [= Heq]. apply time_stamp_inj.
    pose proof (Forall2_length _ _ _ (collect_Forall2 _ _ _ Hps)) as Hlen.
    pose proof (Permutation_length (matched_working_perm ws l)) as Hperm.
    rewrite length_app, length_fmap in Hperm.
    destruct ps as [|p ps].
    + destruct (working ws l) as [|o rest].
      * destruct l; [done|]. simpl in *. lia.
      * simpl in Heq. by injection Heq as <-.
    + simpl in Heq. by injection Heq as <-.
  - intros ->. rewrite Hm1, Hm2.
    assert (matched ws [] = []) as ->.
    { clear. induction ws as [|w ws IH]; [done|]. cbn [matched].
      rewrite bool_decide_eq_false_2; [done|]. apply not_elem_of_nil. }
    assert (working ws [] = []) as ->.
    { clear. induction ws as [|w ws IH]; [done|]. cbn [working].
      rewrite bool_decide_eq_false_2; [done|]. apply not_elem_of_nil. }
    done.
Qed.

Lemma reconciliation_deterministic_witness :
  (Seller.create_stocks [watch_123] sample_ref (sample_world ["123"; "456"])).1
  = (Seller.create_stocks [watch_123] 7%positive
       {| heap := {[ 7%positive := ["123"; "456"]; 9%positive := ["x"] ]};
          clock := "2031-01-01T00:00:00" |}).1
  ∧ res_map (fmap untimed)
      (Market.create_stocks [watch_123] sample_ref "WH" (sample_world ["123"; "456"])).1
    = res_map (fmap untimed)
        (Market.create_stocks [watch_123] 7%positive "WH"
           {| heap := {[ 7%positive := ["123"; "456"]; 9%positive := ["x"] ]};
              clock := "2031-01-01T00:00:00" |}).1.
Proof.
  pose proof (reconciliation_deterministic [watch_123] "WH" sample_ref 7%positive
                (sample_world ["123"; "456"])
                {| heap := {[ 7%positive := ["123"; "456"]; 9%positive := ["x"] ]};
                   clock := "2031-01-01T00:00:00" |}
                ["123"; "456"] eq_refl eq_refl)
    as (Hstocks & _ & _ & Huntimed & _).
  split; [exact Hstocks|exact Huntimed].
Defined.

(** The same snapshot, catalogue and warehouse give different stock
    entries in market.py when the clock has moved on by a second. *)
Lemma market_stocks_differ_with_clock :
  heap (sample_world_at "2024-05-01T10:00:00" ["123"; "456"])
  = heap (sample_world_at "2024-05-01T10:00:01" ["123"; "456"])
  ∧ (Market.create_stocks [watch_123] sample_ref "WH"
       (sample_world_at "2024-05-01T10:00:00" ["123"; "456"])).1
    ≠ (Market.create_stocks [watch_123] sample_ref "WH"
         (sample_world_at "2024-05-01T10:00:01" ["123"; "456"])).1.
Proof. split; [reflexivity|]. vm_compute. discriminate. Qed.

(** ** Price normalisation at the documented inputs *)

(** C4.  [price_conversion] at the inputs of its docstring and of the
    specification.  The text before the first full stop is kept and its
    non-digits are deleted: "5'990.00 руб." gives "5990" and "12.99"
    gives "12".  The empty string and "abc" give the empty string, not
    "0"; seller.py sends it as the price, and in market.py [int] raises
    on it. *)
Theorem price_conversion_samples :
  price_conversion (PStr "5'990.00 руб.") = Ok "5990"
  ∧ price_conversion (PStr "12.99") = Ok "12"
  ∧ price_conversion (PStr "") = Ok ""
  ∧ price_conversion (PStr "abc") = Ok ""
  ∧ int_of_string "" = Raise ValueError
  ∧ (Seller.create_prices [watch_row (PStr "123") (PStr "10") (PStr "abc")]
       sample_ref (sample_world ["123"])).1
    = Ok [ {| Seller.auto_action_enabled := "UNKNOWN"; Seller.currency_code := "RUB";
              Seller.price_offer_id := "123"; Seller.old_price := "0";
              Seller.price := "" |} ]
  ∧ (Market.create_prices [watch_row (PStr "123") (PStr "10") (PStr "abc")]
       sample_ref (sample_world ["123"])).1
    = Raise ValueError.
Proof. repeat split; vm_compute; reflexivity. Qed.

(** ** The offer-id list after the calls *)

(** [create_prices] leaves the store as it found it, also when it
    raises. *)
Lemma create_prices_store ws r σ l :
  heap σ !! r = Some l →
  (Seller.create_prices ws r σ).2 = σ ∧ (Market.create_prices ws r σ).2 = σ.
Proof.
  intros Hr.
  by rewrite (seller_create_prices_run ws r σ l), (market_create_prices_run ws r σ l).
Qed.

(** [create_stocks] leaves in the caller's list object the offer ids
    that no record consumed; the other list objects and the clock are
    as before. *)
Lemma create_stocks_store ws r wh σ l :
  heap σ !! r = Some l →
  (∀ stocks σ', Seller.create_stocks ws r σ = (Ok stocks, σ') →
     heap σ' = <[r := working ws l]> (heap σ) ∧ clock σ' = clock σ)
  ∧ (∀ stocks σ', Market.create_stocks ws r wh σ = (Ok stocks, σ') →
       heap σ' = <[r := working ws l]> (heap σ) ∧ clock σ' = clock σ).
Proof.
  intros Hr. split.
  - by intros stocks σ' (ps & _ & _ & ->)%(seller_create_stocks_ok _ _ _ l).
  - by intros stocks σ' (ps & _ & _ & ->)%(market_create_stocks_ok _ _ _ _ l).
Qed.

(** The list is shorter by one offer id for each matched record. *)
Lemma working_length ws l :
  (length (matched ws l) + length (working ws l) = length l)%nat.
Proof.
  rewrite (Permutation_length (matched_working_perm ws l)).
  by rewrite length_app, length_fmap.
Qed.

Lemma working_changed ws l : matched ws l ≠ [] → working ws l ≠ l.
Proof.
  intros Hne Heq. pose proof (working_length ws l) as Hlen. rewrite Heq in Hlen.
  destruct (matched ws l); [done|]. simpl in Hlen. lia.
Qed.

(** Once the list has been consumed, no record of a duplicate-free
    catalogue is found in it any more. *)
Lemma working_misses_records (ws : list dict) (l : list string) :
  NoDup l → filter (λ w, code_of w ∈ working ws l) ws = [].
Proof.
  intros Hnd.
  destruct (filter (λ w, code_of w ∈ working ws l) ws) as [|w rest] eqn:Hf; [done|].
  assert (Hw : w ∈ filter (λ w, code_of w ∈ working ws l) ws) by (rewrite Hf; left).
  apply list_elem_of_filter in Hw as [Hin Hw].
  assert (Hl : code_of w ∈ l)
    by (by apply (sublist_subseteq _ _ (working_sublist ws l))).
  pose proof (matched_covers ws l w Hw Hl) as Hhit.
  rewrite (matched_working_perm ws l) in Hnd.
  apply NoDup_app in Hnd as (_ & Hdisj & _). by destruct (Hdisj (code_of w)).
Qed.

(** The prices that [main] of seller.py sends are computed from the
    list that [create_stocks] has consumed. *)
Lemma seller_main_run fetched ws σ stock_batches price_batches σ' :
  Seller.main fetched ws σ = (Ok (stock_batches, price_batches), σ') →
  ∃ stocks prices,
    divide stocks 100 = Ok stock_batches
    ∧ divide prices 900 = Ok price_batches
    ∧ Seller.offer_id <$> stocks ≡ₚ fetched
    ∧ Seller.price_offer_id <$> prices
      = code_of <$> filter (λ w, code_of w ∈ working ws fetched) ws.
Proof.
  unfold Seller.main, alloc. unfold mbind at 1, M_bind at 1.
  set (r := fresh (dom (heap σ))).
  set (σ1 := set_heap (<[r := fetched]> (heap σ)) σ).
  assert (Hr : heap σ1 !! r = Some fetched) by apply set_heap_lookup.
  unfold mbind at 1, M_bind at 1.
  destruct (Seller.create_stocks ws r σ1) as [[stocks|e] σ2] eqn:Hstocks; [|done].
  apply (seller_create_stocks_ok _ _ _ fetched) in Hstocks as (ps & Hps & Hst & ->); [|done].
  unfold mbind at 1, M_bind at 1, lift at 1.
  destruct (divide stocks 100) as [sb|e] eqn:Hsb; [|done].
  unfold mbind at 1, M_bind at 1.
  rewrite (seller_create_prices_run ws r _ (working ws fetched)) by apply set_heap_lookup.
  destruct (collect seller_price_of _) as [pps|e] eqn:Hpps; simpl; [|done].
  unfold mbind, M_bind, lift.
  destruct (divide (seller_price <$> pps) 900) as [pb|e] eqn:Hpb; simpl; [|done].
  intros [= <- <- _]. exists stocks, (seller_price <$> pps). split_and!; [done..| |].
  - rewrite Hst, seller_stock_ids, (collect_codes _ _ _ Hps).
    symmetry. apply matched_working_perm.
  - rewrite <- list_fmap_compose. by apply collect_codes in Hpps.
Qed.

(** For a catalogue without duplicates, [main] of seller.py sends no
    price at all, whatever the snapshot. *)
Lemma seller_main_sends_no_price fetched ws σ stock_batches price_batches σ' :
  NoDup fetched →
  Seller.main fetched ws σ = (Ok (stock_batches, price_batches), σ') →
  price_batches = [].
Proof.
  intros Hnd (stocks & prices & _ & Hpb & _ & Hids)%seller_main_run.
  rewrite working_misses_records in Hids by done.
  apply fmap_nil_inv in Hids. subst prices.
  by injection Hpb as <-.
Qed.

(** [upload_prices] of seller.py fetches a list of its own, and prices
    every record whose code is in the catalogue. *)
Lemma seller_upload_prices_run fetched ws σ batches prices σ' :
  Seller.upload_prices fetched ws σ = (Ok (batches, prices), σ') →
  Seller.price_offer_id <$> prices = code_of <$> filter (λ w, code_of w ∈ fetched) ws.
Proof.
  unfold Seller.upload_prices, alloc. unfold mbind at 1, M_bind at 1.
  set (r := fresh (dom (heap σ))).
  unfold mbind at 1, M_bind at 1.
  rewrite (seller_create_prices_run ws r _ fetched) by apply set_heap_lookup.
  destruct (collect seller_price_of _) as [pps|e] eqn:Hpps; simpl; [|done].
  unfold mbind, M_bind, lift.
  destruct (divide (seller_price <$> pps) 1000) as [pb|e]; simpl; [|done].
  intros [= _ <- _]. rewrite <- list_fmap_compose. by apply collect_codes in Hpps.
Qed.

(** C10.  [create_stocks] removes from the caller's list the offer id
    of every matched record: after the call on the catalogue "123",
    "456" and a snapshot with the record "123", the caller's list holds
    "456" only, in seller.py and in market.py.  [main] of seller.py
    passes the same list to [create_prices] afterwards and so sends no
    price for "123", whereas [upload_prices], which fetches a list of
    its own, sends it. *)
Theorem create_stocks_consumes_offer_ids :
  heap (sample_world ["123"; "456"]) !! sample_ref = Some ["123"; "456"]
  ∧ heap (Seller.create_stocks [watch_123] sample_ref (sample_world ["123"; "456"])).2
      !! sample_ref = Some ["456"]
  ∧ heap (Market.create_stocks [watch_123] sample_ref "WH" (sample_world ["123"; "456"])).2
      !! sample_ref = Some ["456"]
  ∧ heap (Seller.create_prices [watch_123] sample_ref (sample_world ["123"; "456"])).2
      !! sample_ref = Some ["123"; "456"]
  ∧ (Seller.main ["123"; "456"] [watch_123] empty_world).1
    = Ok ([[ {| Seller.offer_id := "123"; Seller.stock := 10 |};
             {| Seller.offer_id := "456"; Seller.stock := 0 |} ]],
          [])
  ∧ (Seller.upload_prices ["123"; "456"] [watch_123] empty_world).1
    = Ok ([[ seller_price ("123", "5990") ]], [ seller_price ("123", "5990") ]).
Proof. repeat split; vm_compute; reflexivity. Qed.

(** A second call of [create_stocks] on the same list object sees what
    the first call left. *)
Example create_stocks_second_call :
  ((first ← Seller.create_stocks [watch_123] sample_ref;
    second ← Seller.create_stocks [watch_123] sample_ref;
    mret (first, second)) (sample_world ["123"; "456"])).1
  = Ok ([ {| Seller.offer_id := "123"; Seller.stock := 10 |};
          {| Seller.offer_id := "456"; Seller.stock := 0 |} ],
        [ {| Seller.offer_id := "456"; Seller.stock := 0 |} ]).
Proof. vm_compute. reflexivity. Qed.

(** * Further properties of the code *)

(** ** More on the batcher *)

Lemma range_up_done fuel i stop step : stop ≤ i → range_up fuel i stop step = [].
Proof.
  intros Hge. destruct fuel as [|fuel]; simpl; [done|].
  by destruct (Z.ltb_spec i stop); [lia|].
Qed.

Lemma range_up_seq fuel i stop step :
  0 < step → stop - i ≤ Z.of_nat fuel →
  range_up fuel i stop step
  = (λ k : nat, i + Z.of_nat k * step)
      <$> seq 0 (Z.to_nat (Z.max 0 ((stop - i + step - 1) / step))).
Proof.
  intros Hstep Hfuel.
  pose proof (range_up_length fuel i stop step Hstep Hfuel) as Hlen.
  apply list_eq_same_length with (length (range_up fuel i stop step)).
  - rewrite length_fmap, length_seq. lia.
  - done.
  - intros k x y Hk Hx. rewrite list_lookup_fmap.
    rewrite lookup_seq_lt by lia. simpl.
    intros [= <-]. by apply range_up_lookup in Hx as [-> _].
Qed.

(** [list(divide(lst, n))] as the list of its slices. *)
Lemma divide_slices {A : Type} (lst : list A) (n : Z) :
  0 < n →
  divide lst n
  = Ok ((λ k : nat, take (Z.to_nat n) (drop (k * Z.to_nat n) lst))
          <$> seq 0 (Z.to_nat ((Z.of_nat (length lst) + n - 1) / n))).
Proof.
  intros Hn. unfold divide, py_range.
  destruct (Z.eqb_spec n 0) as [|_]; [lia|].
  destruct (Z.ltb_spec 0 n) as [_|]; [|lia].
  rewrite Z.sub_0_r, Nat2Z.id. f_equal.
  rewrite range_up_seq by lia. rewrite Z.sub_0_r.
  rewrite Z.max_r by (apply Z.div_pos; lia).
  rewrite <- list_fmap_compose. apply list_fmap_ext.
  intros _ k _. simpl. rewrite py_slice_chunk by lia.
  set (len := Z.of_nat (length lst)).
  destruct (Z.le_gt_cases len (Z.of_nat k * n)) as [Hout|Hin].
  - rewrite !take_drop_commute, !drop_ge; [done|rewrite length_take; nia..].
  - rewrite (Z.min_l (Z.of_nat k * n)) by lia.
    replace (Z.to_nat (Z.of_nat k * n)) with (k * Z.to_nat n)%nat by nia.
    destruct (Z.le_gt_cases (Z.of_nat k * n + n) len) as [Hfull|Hlast].
    + rewrite Z.min_l by lia. f_equal. lia.
    + rewrite Z.min_r by lia.
      rewrite !take_ge; [done|rewrite length_drop; unfold len in *; nia..].
Qed.

(** X1. For a positive size [n], the chunk of [list(divide(lst, n))]
    at position [k] is the slice [lst[k*n : (k+1)*n]]: the [n] elements
    that follow the first [k * n], or what is left of them; and there
    is a chunk at position [k] exactly when [k * n < len(lst)]. *)
Theorem divide_chunk_at {A : Type} (lst : list A) (n : Z) :
  0 < n →
  ∃ chunks : list (list A),
    divide lst n = Ok chunks
    ∧ ∀ k : nat,
        chunks !! k
        = if decide (Z.of_nat k * n < Z.of_nat (length lst))
          then Some (take (Z.to_nat n) (drop (k * Z.to_nat n) lst))
          else None.
Proof.
  intros Hn. eexists. split; [by apply divide_slices|].
  intros k. rewrite list_lookup_fmap.
  set (len := Z.of_nat (length lst)).
  pose proof (Z.div_mod (len + n - 1) n ltac:(lia)) as Hdm.
  pose proof (Z.mod_pos_bound (len + n - 1) n Hn) as Hmod.
  assert (0 ≤ (len + n - 1) / n) by (apply Z.div_pos; lia).
  case_decide as Hk.
  - rewrite lookup_seq_lt; [done|]. nia.
  - rewrite lookup_seq_ge; [done|]. nia.
Qed.

Lemma divide_chunk_at_witness :
  ∃ chunks : list (list string),
    divide ["a"; "b"; "c"; "d"; "e"] 2 = Ok chunks
    ∧ ∀ k : nat,
        chunks !! k
        = if decide (Z.of_nat k * 2 < Z.of_nat (length ["a"; "b"; "c"; "d"; "e"]))
          then Some (take (Z.to_nat 2) (drop (k * Z.to_nat 2) ["a"; "b"; "c"; "d"; "e"]))
          else None.
Proof. apply (divide_chunk_at ["a"; "b"; "c"; "d"; "e"] 2). lia. Defined.

(** X2. A chunk size that is not positive gives no batch: zero makes
    [range] raise [ValueError] when the generator is first advanced,
    and a negative size makes the range empty, so that
    [list(divide(lst, n))] is empty whatever [lst] holds. *)
Theorem divide_bad_size {A : Type} (lst : list A) (n : Z) :
  n ≤ 0 →
  divide lst n = if n =? 0 then Raise ValueError else Ok [].
Proof.
  intros Hn. unfold divide, py_range.
  destruct (Z.eqb_spec n 0); [done|]. destruct (Z.ltb_spec 0 n); [lia|].
  simpl. replace (Z.to_nat (0 - Z.of_nat (length lst))) with 0%nat by lia. done.
Qed.

Lemma divide_bad_size_witness :
  divide ["a"; "b"; "c"] (-2) = (if -2 =? 0 then Raise ValueError else Ok [])
  ∧ divide ["a"; "b"; "c"] 0 = (if 0 =? 0 then Raise ValueError else Ok []).
Proof.
  split.
  - apply (divide_bad_size ["a"; "b"; "c"] (-2)). lia.
  - apply (divide_bad_size ["a"; "b"; "c"] 0). lia.
Defined.

(** X3. A list that fits in one batch is sent as one batch, and an
    empty list gives no batch at all, so that the loops over
    [divide(...)] make no upload call for it. *)
Theorem divide_short_list {A : Type} (lst : list A) (n : Z) :
  0 < n →
  Z.of_nat (length lst) ≤ n →
  divide lst n = Ok (match lst with [] => [] | _ => [lst] end).
Proof.
  intros Hn Hlen. rewrite divide_slices by done.
  destruct lst as [|x lst].
  { simpl length. by rewrite Z.div_small by lia. }
  replace ((Z.of_nat (length (x :: lst)) + n - 1) / n) with 1.
  - change (Z.to_nat 1) with 1%nat. cbn [seq fmap list_fmap].
    rewrite Nat.mul_0_l, drop_0.
    rewrite take_ge by lia. done.
  - apply Z.div_unique with (Z.of_nat (length (x :: lst)) - 1); simpl length in *; lia.
Qed.

Lemma divide_short_list_witness :
  divide ["a"; "b"; "c"] 100 = Ok [["a"; "b"; "c"]].
Proof. apply (divide_short_list ["a"; "b"; "c"] 100); simpl; lia. Defined.

(** ** More on price normalisation *)

Lemma split_on_absent sep s : has_char sep s = false → split_on sep s = [s].
Proof.
  induction s as [|a s IH]; simpl; [done|].
  intros [Ha Hs]%orb_false_iff. rewrite Ha. by rewrite IH.
Qed.

Lemma split_on_at_first sep s t :
  has_char sep s = false →
  split_on sep (s +:+ String sep t) = s :: split_on sep t.
Proof.
  induction s as [|a s IH]; simpl.
  - intros _. by rewrite Ascii.eqb_refl.
  - intros [Ha Hs]%orb_false_iff. rewrite Ha. by rewrite IH.
Qed.

Lemma all_digits_no_full_stop d : all_digits d = true → has_char "." d = false.
Proof.
  induction d as [|c d IH]; simpl; [done|].
  intros [Hc Hd]%andb_true_iff. rewrite (IH Hd), orb_false_r.
  destruct (Ascii.eqb_spec c ".") as [->|]; [done|done].
Qed.

(** X4. [price_conversion] keeps the digits of the text in front of
    the first full stop, in their order, and nothing else: whatever
    follows that full stop has no influence on the result, and a text
    without a full stop is taken as a whole. *)
Theorem price_conversion_before_full_stop (s t : string) :
  has_char "." s = false →
  price_conversion (PStr (s +:+ String "." t)) = Ok (strip_non_digits s)
  ∧ price_conversion (PStr s) = Ok (strip_non_digits s).
Proof.
  intros Hs. unfold price_conversion. split.
  - by rewrite split_on_at_first.
  - by rewrite split_on_absent.
Qed.

Lemma price_conversion_before_full_stop_witness :
  price_conversion (PStr ("5'990" +:+ String "." "00 руб.")) = Ok (strip_non_digits "5'990")
  ∧ price_conversion (PStr "5'990") = Ok (strip_non_digits "5'990").
Proof. apply (price_conversion_before_full_stop "5'990" "00 руб."). reflexivity. Defined.

(** X5. [price_conversion] is idempotent: its result is a string of
    digits, and a string of digits is returned as it is. *)
Theorem price_conversion_idempotent (s d : string) :
  price_conversion (PStr s) = Ok d →
  all_digits d = true ∧ price_conversion (PStr d) = Ok d.
Proof.
  intros Hd. destruct (price_conversion_digits s) as (d' & Hd' & Hdig).
  assert (d' = d) as -> by congruence.
  split; [done|]. unfold price_conversion.
  rewrite split_on_absent by by apply all_digits_no_full_stop.
  simpl. by rewrite strip_non_digits_id.
Qed.

Lemma price_conversion_idempotent_witness :
  all_digits "5990" = true ∧ price_conversion (PStr "5990") = Ok "5990".
Proof. apply (price_conversion_idempotent "5'990.00 руб." "5990"). reflexivity. Defined.

(** ** What [create_prices] returns, and when it raises *)

Lemma collect_ok_iff {V : Type} (f : dict → res V) (hs : list dict) :
  (∃ ps, collect f hs = Ok ps) ↔ ∀ w, w ∈ hs → ∃ v, f w = Ok v.
Proof.
  split.
  - intros [ps Hps] w Hw. revert ps Hps.
    induction hs as [|w' hs IH]; intros ps; simpl; [by apply elem_of_nil in Hw|].
    destruct (f w') as [v|] eqn:Hv; [|done].
    destruct (collect f hs) as [ps'|]; [|done]. intros _.
    apply elem_of_cons in Hw as [->|Hw]; [eauto|]. by apply (IH Hw ps').
  - intros Hall. apply collect_ok. by apply Forall_forall.
Qed.

Lemma collect_raise_inv {V : Type} (f : dict → res V) (hs : list dict) e :
  collect f hs = Raise e → ∃ w, w ∈ hs ∧ f w = Raise e.
Proof.
  induction hs as [|w hs IH]; simpl; [done|].
  destruct (f w) as [v|e'] eqn:Hv.
  - destruct (collect f hs) as [ps|e'']; [done|].
    intros [= <-]. destruct (IH eq_refl) as (w' & Hw' & Hf). exists w'. split; [by right|done].
  - intros [= <-]. exists w. split; [by left|done].
Qed.

Lemma seller_price_of_cases w :
  (∃ s d, dict_get w "Цена" = PStr s ∧ seller_price_of w = Ok d ∧ all_digits d = true)
  ∨ ((∀ s, dict_get w "Цена" ≠ PStr s) ∧ seller_price_of w = Raise AttributeError).
Proof.
  unfold seller_price_of. destruct (dict_get w "Цена") as [| |s| |] eqn:Hcell;
    [by right..| |by right|by right].
  left. destruct (price_conversion_digits s) as (d & Hd & Hdig). eauto 6.
Qed.

Lemma market_price_of_ok w :
  (∃ v, market_price_of w = Ok v)
  ↔ ∃ s d, dict_get w "Цена" = PStr s ∧ price_conversion (PStr s) = Ok d
           ∧ d ≠ EmptyString ∧ Z.of_nat (String.length d) ≤ max_str_digits.
Proof.
  unfold market_price_of. split.
  - intros [v Hv]. destruct (dict_get w "Цена") as [| |s| |]; [done..| |done|done].
    destruct (price_conversion_digits s) as (d & Hd & Hdig).
    exists s, d. rewrite Hd in Hv.
    destruct (int_of_digits d Hdig) as [(Hne & Hlen & _)|[_ Hbad]]; [done|congruence].
  - intros (s & d & -> & Hd & Hne & Hlen).
    destruct (price_conversion_digits s) as (d' & Hd' & Hdig).
    assert (d' = d) as -> by congruence. rewrite Hd.
    destruct (int_of_digits d Hdig) as [(_ & _ & n & -> & _)|[[->|Hlong] _]];
      [eauto|done|lia].
Qed.

(** X6. [create_prices] of seller.py returns normally exactly when the
    price cell of every record whose code is in the offer-id list is a
    [str]; otherwise, for a missing price column or a numeric cell, it
    raises [AttributeError], and in no case does it change the
    store. *)
Theorem seller_create_prices_returns ws r σ l :
  heap σ !! r = Some l →
  ((∃ prices, Seller.create_prices ws r σ = (Ok prices, σ))
   ↔ ∀ w, w ∈ ws → code_of w ∈ l → ∃ s, dict_get w "Цена" = PStr s)
  ∧ ((∃ prices, Seller.create_prices ws r σ = (Ok prices, σ))
     ∨ Seller.create_prices ws r σ = (Raise AttributeError, σ)).
Proof.
  intros Hr. rewrite (seller_create_prices_run ws r σ l) by done.
  set (hs := filter (λ w, code_of w ∈ l) ws).
  assert (Hiff : (∃ ps, collect seller_price_of hs = Ok ps)
                 ↔ ∀ w, w ∈ ws → code_of w ∈ l → ∃ s, dict_get w "Цена" = PStr s).
  { rewrite collect_ok_iff. split.
    - intros Hall w Hw Hin. destruct (Hall w) as [v Hv].
      { apply list_elem_of_filter. done. }
      destruct (seller_price_of_cases w) as [(s & _ & Hs & _)|[_ Hbad]]; [eauto|congruence].
    - intros Hall w [Hin Hw]%list_elem_of_filter.
      destruct (Hall w Hw Hin) as [s Hs].
      destruct (seller_price_of_cases w) as [(_ & d & _ & Hd & _)|[Hbad _]]; [eauto|].
      by destruct (Hbad s). }
  split.
  - rewrite <- Hiff. split.
    + intros [prices Hrun]. destruct (collect seller_price_of hs); [eauto|done].
    + intros [ps ->]. simpl. eauto.
  - destruct (collect seller_price_of hs) as [ps|e] eqn:Hps; simpl; [eauto|].
    right. apply collect_raise_inv in Hps as (w & _ & Hw).
    destruct (seller_price_of_cases w) as [(_ & d & _ & Hd & _)|[_ Hbad]]; congruence.
Qed.

Lemma seller_create_prices_returns_witness :
  ((∃ prices, Seller.create_prices [watch_123] sample_ref (sample_world ["123"; "456"])
              = (Ok prices, sample_world ["123"; "456"]))
   ↔ ∀ w, w ∈ [watch_123] → code_of w ∈ ["123"; "456"] → ∃ s, dict_get w "Цена" = PStr s)
  ∧ ((∃ prices, Seller.create_prices [watch_123] sample_ref (sample_world ["123"; "456"])
                = (Ok prices, sample_world ["123"; "456"]))
     ∨ Seller.create_prices [watch_123] sample_ref (sample_world ["123"; "456"])
       = (Raise AttributeError, sample_world ["123"; "456"])).
Proof.
  apply (seller_create_prices_returns [watch_123] sample_ref
           (sample_world ["123"; "456"]) ["123"; "456"]).
  reflexivity.
Defined.

(** X7. [create_prices] of market.py returns normally exactly when the
    price cell of every record whose code is in the offer-id list is a
    [str] with at least one and at most 4300 digits in front of its
    first full stop: on a cell that is no [str] [price_conversion]
    raises, and on a text with no digit there, or with more than 4300
    of them, [int] raises.  It never changes the store. *)
Theorem market_create_prices_returns ws r σ l :
  heap σ !! r = Some l →
  ((∃ prices, Market.create_prices ws r σ = (Ok prices, σ))
   ↔ ∀ w, w ∈ ws → code_of w ∈ l →
       ∃ s d, dict_get w "Цена" = PStr s ∧ price_conversion (PStr s) = Ok d
              ∧ d ≠ EmptyString ∧ Z.of_nat (String.length d) ≤ max_str_digits)
  ∧ (Market.create_prices ws r σ).2 = σ.
Proof.
  intros Hr. rewrite (market_create_prices_run ws r σ l) by done.
  split; [|done].
  set (hs := filter (λ w, code_of w ∈ l) ws).
  trans (∃ ps, collect market_price_of hs = Ok ps).
  - split.
    + intros [prices Hrun]. destruct (collect market_price_of hs); [eauto|done].
    + intros [ps ->]. simpl. eauto.
  - rewrite collect_ok_iff. split.
    + intros Hall w Hw Hin. apply market_price_of_ok, Hall.
      by apply list_elem_of_filter.
    + intros Hall w [Hin Hw]%list_elem_of_filter. apply market_price_of_ok. by apply Hall.
Qed.

Lemma market_create_prices_returns_witness :
  ((∃ prices, Market.create_prices [watch_123] sample_ref (sample_world ["123"; "456"])
              = (Ok prices, sample_world ["123"; "456"]))
   ↔ ∀ w, w ∈ [watch_123] → code_of w ∈ ["123"; "456"] →
       ∃ s d, dict_get w "Цена" = PStr s ∧ price_conversion (PStr s) = Ok d
              ∧ d ≠ EmptyString ∧ Z.of_nat (String.length d) ≤ max_str_digits)
  ∧ (Market.create_prices [watch_123] sample_ref (sample_world ["123"; "456"])).2
    = sample_world ["123"; "456"].
Proof.
  apply (market_create_prices_returns [watch_123] sample_ref
           (sample_world ["123"; "456"]) ["123"; "456"]).
  reflexivity.
Defined.

(** X8. The list that [create_prices] returns has one entry for each
    record whose code is in the offer-id list, in the order of the
    snapshot.  In seller.py the entry carries the code, the normalised
    price, a string of digits, and the fixed fields "UNKNOWN", "RUB"
    and "0"; in market.py it carries the code, the value of the
    normalised price as a number, which is never negative, and the
    currency "RUR". *)
Theorem create_prices_entries ws r σ l :
  heap σ !! r = Some l →
  (∀ prices σ', Seller.create_prices ws r σ = (Ok prices, σ') →
     Forall2 (λ w p, Seller.price_offer_id p = code_of w
                     ∧ price_conversion (dict_get w "Цена") = Ok (Seller.price p)
                     ∧ all_digits (Seller.price p) = true
                     ∧ Seller.auto_action_enabled p = "UNKNOWN"
                     ∧ Seller.currency_code p = "RUB"
                     ∧ Seller.old_price p = "0")
             (filter (λ w, code_of w ∈ l) ws) prices)
  ∧ (∀ prices σ', Market.create_prices ws r σ = (Ok prices, σ') →
       Forall2 (λ w p, Market.id p = code_of w
                       ∧ (∃ d, price_conversion (dict_get w "Цена") = Ok d
                               ∧ int_of_string d = Ok (Market.value (Market.price p)))
                       ∧ 0 ≤ Market.value (Market.price p)
                       ∧ Market.currencyId (Market.price p) = "RUR")
               (filter (λ w, code_of w ∈ l) ws) prices)
  ∧ Seller.create_prices
      [watch_123; watch_row (PStr "789") (PStr "1") (PStr "100.50");
       watch_row (PInt 456) (PStr "1") (PStr "1 250 руб.")]
      sample_ref (sample_world ["456"; "123"])
    = (Ok [ seller_price ("123", "5990"); seller_price ("456", "1250") ],
       sample_world ["456"; "123"])
  ∧ Market.create_prices
      [watch_123; watch_row (PStr "789") (PStr "1") (PStr "100.50");
       watch_row (PInt 456) (PStr "1") (PStr "1 250 руб.")]
      sample_ref (sample_world ["456"; "123"])
    = (Ok [ market_price ("123", 5990); market_price ("456", 1250) ],
       sample_world ["456"; "123"]).
Proof.
  intros Hr. split_and!; [| |vm_compute; reflexivity..].
  - intros prices σ'. rewrite (seller_create_prices_run ws r σ l) by done.
    destruct (collect seller_price_of _) as [ps|] eqn:Hps; simpl; [|done].
    intros [= <- _]. apply Forall2_fmap_r.
    eapply Forall2_impl; [by apply collect_Forall2|].
    intros w [c d] [Hc Hd]. simpl in *. split_and!; try done.
    destruct (seller_price_of_cases w) as [(_ & d' & _ & Hd' & Hdig)|[_ Hbad]]; congruence.
  - intros prices σ'. rewrite (market_create_prices_run ws r σ l) by done.
    destruct (collect market_price_of _) as [ps|] eqn:Hps; simpl; [|done].
    intros [= <- _]. apply Forall2_fmap_r.
    eapply Forall2_impl; [by apply collect_Forall2|].
    intros w [c v] [Hc Hv]. simpl in *. split_and!; try done.
    + unfold market_price_of in Hv.
      destruct (price_conversion (dict_get w "Цена")) as [d|]; [eauto|done].
    + by apply (market_price_nonneg w).
Qed.

Lemma create_prices_entries_witness :
  Forall2 (λ w p, Seller.price_offer_id p = code_of w
                  ∧ price_conversion (dict_get w "Цена") = Ok (Seller.price p)
                  ∧ all_digits (Seller.price p) = true
                  ∧ Seller.auto_action_enabled p = "UNKNOWN"
                  ∧ Seller.currency_code p = "RUB"
                  ∧ Seller.old_price p = "0")
          (filter (λ w, code_of w ∈ ["123"; "456"]) [watch_123])
          [seller_price ("123", "5990")]
  ∧ Forall2 (λ w p, Market.id p = code_of w
                    ∧ (∃ d, price_conversion (dict_get w "Цена") = Ok d
                            ∧ int_of_string d = Ok (Market.value (Market.price p)))
                    ∧ 0 ≤ Market.value (Market.price p)
                    ∧ Market.currencyId (Market.price p) = "RUR")
            (filter (λ w, code_of w ∈ ["123"; "456"]) [watch_123])
            [market_price ("123", 5990)].
Proof.
  pose proof (create_prices_entries [watch_123] sample_ref
                (sample_world ["123"; "456"]) ["123"; "456"] eq_refl)
    as (Hseller & Hmarket & _).
  split.
  - apply (Hseller _ (sample_world ["123"; "456"])). vm_compute. reflexivity.
  - apply (Hmarket _ (sample_world ["123"; "456"])). vm_compute. reflexivity.
Defined.

(** ** More on [create_stocks] *)

Lemma for_each_app {A S : Type} (xs ys : list A) (body : S → A → M S) : ∀ acc σ,
  for_each (xs ++ ys) acc body σ
  = (acc' ← for_each xs acc body; for_each ys acc' body) σ.
Proof.
  induction xs as [|x xs IH]; intros acc σ; simpl; [done|].
  unfold mbind, M_bind. destruct (body acc x σ) as [[acc'|e] σ1]; [|done].
  apply IH.
Qed.

Lemma matched_none (ws : list dict) (l : list string) :
  (∀ w, w ∈ ws → code_of w ∉ l) → matched ws l = [] ∧ working ws l = l.
Proof.
  induction ws as [|w ws IH]; intros Hws; simpl; [done|].
  rewrite bool_decide_eq_false_2 by (apply Hws; left).
  apply IH. intros w' Hw'. apply Hws. by right.
Qed.

Lemma working_consumed (ws : list dict) : ∀ (l : list string) w,
  NoDup l → w ∈ ws → code_of w ∉ working ws l.
Proof.
  induction ws as [|w' ws IH]; intros l w Hnd Hw; simpl; [by apply elem_of_nil in Hw|].
  destruct (remove_first_NoDup (code_of w') l Hnd) as [Hnd' Hgone].
  apply elem_of_cons in Hw as [->|Hw].
  - case_bool_decide as Hin.
    + intros Hleft. apply Hgone.
      by apply (sublist_subseteq _ _ (working_sublist ws _)).
    + intros Hleft. apply Hin.
      by apply (sublist_subseteq _ _ (working_sublist ws _)).
  - case_bool_decide; by apply IH.
Qed.

Section stocks_loop_more.
Context {E : Type} (mk : string * Z → E) (r : loc).
Variable body : list E → dict → M (list E).
Hypothesis body_step : ∀ σ l stocks w,
  heap σ !! r = Some l →
  body stocks w σ
  = if bool_decide (code_of w ∈ l) then
      match stock_of w with
      | Ok v => (Ok (stocks ++ [mk (code_of w, v)]),
                 set_heap (<[r := remove_first (code_of w) l]> (heap σ)) σ)
      | Raise e => (Raise e, σ)
      end
    else (Ok stocks, σ).

(** A record whose code is not in the list when the loop reaches it
    leaves no trace. *)
Lemma stocks_loop_skip ws1 w ws2 σ l acc :
  heap σ !! r = Some l →
  code_of w ∉ working ws1 l →
  for_each (ws1 ++ w :: ws2) acc body σ = for_each (ws1 ++ ws2) acc body σ.
Proof.
  intros Hr Hout. rewrite !for_each_app. unfold mbind, M_bind.
  destruct (for_each ws1 acc body σ) as [[acc'|e] σ1] eqn:Hloop; [|done].
  apply (stocks_loop_state mk r body body_step ws1 σ l) in Hloop as ->; [|done].
  simpl. unfold mbind, M_bind.
  rewrite (body_step _ (working ws1 l)) by apply set_heap_lookup.
  by rewrite bool_decide_eq_false_2.
Qed.

(** Whatever the outcome, the loop changes nothing but the list, which
    it may only shorten. *)
Lemma stocks_loop_frame ws : ∀ σ l acc,
  heap σ !! r = Some l →
  ∃ l', l' `sublist_of` l
        ∧ (for_each ws acc body σ).2 = set_heap (<[r := l']> (heap σ)) σ.
Proof.
  induction ws as [|w ws IH]; intros σ l acc Hr; simpl.
  - exists l. split; [done|]. by rewrite set_heap_same.
  - unfold mbind, M_bind. rewrite (body_step σ l) by done.
    destruct (bool_decide (code_of w ∈ l)); [|by apply IH].
    destruct (stock_of w) as [v|e]; simpl.
    + destruct (IH (set_heap (<[r := remove_first (code_of w) l]> (heap σ)) σ)
                   (remove_first (code_of w) l) (acc ++ [mk (code_of w, v)]))
        as (l' & Hsub & ->); [apply set_heap_lookup|].
      exists l'. split; [etrans; [done|apply remove_first_sublist]|].
      unfold set_heap. simpl. by rewrite insert_insert_eq.
    + exists l. split; [done|]. by rewrite set_heap_same.
Qed.
End stocks_loop_more.

(** X9. [create_stocks] takes no notice of a record whose code is not
    in the offer-id list: with or without it the call returns the same
    list or raises the same exception, and leaves the same store,
    whatever the quantity cell of the record holds. *)
Theorem create_stocks_skips_uncatalogued ws1 w ws2 r wh σ l :
  heap σ !! r = Some l →
  code_of w ∉ l →
  Seller.create_stocks (ws1 ++ w :: ws2) r σ = Seller.create_stocks (ws1 ++ ws2) r σ
  ∧ Market.create_stocks (ws1 ++ w :: ws2) r wh σ = Market.create_stocks (ws1 ++ ws2) r wh σ.
Proof.
  intros Hr Hout.
  assert (Hw : code_of w ∉ working ws1 l).
  { intros Hin. apply Hout. by apply (sublist_subseteq _ _ (working_sublist ws1 l)). }
  split.
  - unfold Seller.create_stocks, mbind, M_bind.
    rewrite (stocks_loop_skip seller_stock r (Seller.stocks_body r)
               (λ σ l, seller_stocks_body_step r σ l) ws1 w ws2 σ l) by done.
    done.
  - unfold Market.create_stocks, utcnow_isoformat, mbind, M_bind.
    rewrite (stocks_loop_skip (market_stock wh (clock σ +:+ "Z")) r
               (Market.stocks_body r wh (clock σ +:+ "Z"))
               (λ σ l, market_stocks_body_step wh _ r σ l) ws1 w ws2 σ l) by done.
    done.
Qed.

Lemma create_stocks_skips_uncatalogued_witness :
  Seller.create_stocks ([watch_123] ++ watch_row (PStr "789") (PStr "many") PNone :: [])
    sample_ref (sample_world ["123"; "456"])
  = Seller.create_stocks ([watch_123] ++ []) sample_ref (sample_world ["123"; "456"])
  ∧ Market.create_stocks ([watch_123] ++ watch_row (PStr "789") (PStr "many") PNone :: [])
      sample_ref "WH" (sample_world ["123"; "456"])
    = Market.create_stocks ([watch_123] ++ []) sample_ref "WH" (sample_world ["123"; "456"]).
Proof.
  apply (create_stocks_skips_uncatalogued [watch_123]
           (watch_row (PStr "789") (PStr "many") PNone) [] sample_ref "WH"
           (sample_world ["123"; "456"]) ["123"; "456"]).
  - reflexivity.
  - intros H. apply elem_of_cons in H as [H|H]; [vm_compute in H; discriminate H|].
    apply elem_of_cons in H as [H|H]; [vm_compute in H; discriminate H|].
    by apply elem_of_nil in H.
Defined.

(** X10. First match wins: when the offer-id list has no duplicate, a
    record whose code an earlier record of the snapshot already has is
    ignored by [create_stocks], as if it were not in the snapshot. *)
Theorem create_stocks_first_match_wins ws1 w0 w ws2 r wh σ l :
  heap σ !! r = Some l →
  NoDup l →
  w0 ∈ ws1 →
  code_of w = code_of w0 →
  Seller.create_stocks (ws1 ++ w :: ws2) r σ = Seller.create_stocks (ws1 ++ ws2) r σ
  ∧ Market.create_stocks (ws1 ++ w :: ws2) r wh σ = Market.create_stocks (ws1 ++ ws2) r wh σ.
Proof.
  intros Hr Hnd Hw0 Hcode.
  assert (Hw : code_of w ∉ working ws1 l) by (rewrite Hcode; by apply working_consumed).
  split.
  - unfold Seller.create_stocks, mbind, M_bind.
    rewrite (stocks_loop_skip seller_stock r (Seller.stocks_body r)
               (λ σ l, seller_stocks_body_step r σ l) ws1 w ws2 σ l) by done.
    done.
  - unfold Market.create_stocks, utcnow_isoformat, mbind, M_bind.
    rewrite (stocks_loop_skip (market_stock wh (clock σ +:+ "Z")) r
               (Market.stocks_body r wh (clock σ +:+ "Z"))
               (λ σ l, market_stocks_body_step wh _ r σ l) ws1 w ws2 σ l) by done.
    done.
Qed.

Lemma create_stocks_first_match_wins_witness :
  Seller.create_stocks ([watch_123] ++ watch_row (PStr "123") (PStr "7") PNone :: [])
    sample_ref (sample_world ["123"; "456"])
  = Seller.create_stocks ([watch_123] ++ []) sample_ref (sample_world ["123"; "456"])
  ∧ Market.create_stocks ([watch_123] ++ watch_row (PStr "123") (PStr "7") PNone :: [])
      sample_ref "WH" (sample_world ["123"; "456"])
    = Market.create_stocks ([watch_123] ++ []) sample_ref "WH" (sample_world ["123"; "456"]).
Proof.
  apply (create_stocks_first_match_wins [watch_123] watch_123
           (watch_row (PStr "123") (PStr "7") PNone) [] sample_ref "WH"
           (sample_world ["123"; "456"]) ["123"; "456"]).
  - reflexivity.
  - apply NoDup_cons. split.
    + intros H. apply list_elem_of_singleton in H. discriminate H.
    + apply NoDup_singleton.
  - left.
  - reflexivity.
Defined.

Lemma filter_catalogued_nil (ws : list dict) (l : list string) :
  (∀ w, w ∈ ws → code_of w ∉ l) → filter (λ w, code_of w ∈ l) ws = [].
Proof.
  intros Hws.
  destruct (filter (λ w, code_of w ∈ l) ws) as [|w rest] eqn:Hf; [done|].
  assert (Hw : w ∈ filter (λ w, code_of w ∈ l) ws) by (rewrite Hf; left).
  apply list_elem_of_filter in Hw as [Hin Hw]. by destruct (Hws w Hw).
Qed.

(** X11. When no record of the snapshot has its code in the offer-id
    list, as for an empty snapshot or an empty catalogue,
    [create_stocks] returns a zero entry for every offer id, in the
    order of the list, and [create_prices] returns the empty list;
    neither raises, whatever the cells hold, and the list is left as it
    was. *)
Theorem nothing_catalogued ws r wh σ l :
  heap σ !! r = Some l →
  (∀ w, w ∈ ws → code_of w ∉ l) →
  Seller.create_stocks ws r σ
  = (Ok ((λ o, {| Seller.offer_id := o; Seller.stock := 0 |}) <$> l), σ)
  ∧ Market.create_stocks ws r wh σ
    = (Ok ((λ o, market_stock wh (clock σ +:+ "Z") (o, 0)) <$> l), σ)
  ∧ Seller.create_prices ws r σ = (Ok [], σ)
  ∧ Market.create_prices ws r σ = (Ok [], σ).
Proof.
  intros Hr Hws. destruct (matched_none ws l Hws) as [Hm Hk].
  split_and!.
  - destruct (seller_create_stocks_run ws r σ l Hr) as [Hres Hst].
    rewrite Hm, Hk in Hres. rewrite Hk in Hst. simpl in Hres.
    destruct (Seller.create_stocks ws r σ) as [res σ']. simpl in *. subst res.
    by rewrite (Hst _ eq_refl), set_heap_same.
  - destruct (market_create_stocks_run ws r wh σ l Hr) as [Hres Hst].
    rewrite Hm, Hk in Hres. rewrite Hk in Hst. simpl in Hres.
    destruct (Market.create_stocks ws r wh σ) as [res σ']. simpl in *. subst res.
    by rewrite (Hst _ eq_refl), set_heap_same.
  - by rewrite (seller_create_prices_run ws r σ l), filter_catalogued_nil.
  - by rewrite (market_create_prices_run ws r σ l), filter_catalogued_nil.
Qed.

Lemma nothing_catalogued_witness :
  Seller.create_stocks [watch_row (PStr "789") (PStr "many") PNone] sample_ref
    (sample_world ["123"; "456"])
  = (Ok ((λ o, {| Seller.offer_id := o; Seller.stock := 0 |}) <$> ["123"; "456"]),
     sample_world ["123"; "456"])
  ∧ Market.create_stocks [watch_row (PStr "789") (PStr "many") PNone] sample_ref "WH"
      (sample_world ["123"; "456"])
    = (Ok ((λ o, market_stock "WH" (clock (sample_world ["123"; "456"]) +:+ "Z") (o, 0))
             <$> ["123"; "456"]),
       sample_world ["123"; "456"])
  ∧ Seller.create_prices [watch_row (PStr "789") (PStr "many") PNone] sample_ref
      (sample_world ["123"; "456"])
    = (Ok [], sample_world ["123"; "456"])
  ∧ Market.create_prices [watch_row (PStr "789") (PStr "many") PNone] sample_ref
      (sample_world ["123"; "456"])
    = (Ok [], sample_world ["123"; "456"]).
Proof.
  apply (nothing_catalogued [watch_row (PStr "789") (PStr "many") PNone] sample_ref "WH"
           (sample_world ["123"; "456"]) ["123"; "456"]).
  - reflexivity.
  - intros w Hw. apply list_elem_of_singleton in Hw. subst w. intros H.
    apply elem_of_cons in H as [H|H]; [vm_compute in H; discriminate H|].
    apply elem_of_cons in H as [H|H]; [vm_compute in H; discriminate H|].
    by apply elem_of_nil in H.
Defined.

(** X12. Whether [create_stocks] returns or raises, the only thing it
    changes in the store is the list behind [offer_ids], which it
    leaves as a subsequence of what it was: the other list objects and
    the clock are as before.  When it returns, the offer ids left in
    the list are those of the zero entries that end the output, and
    the output has as many entries as the list had offer ids. *)
Theorem create_stocks_store_frame ws r wh σ l :
  heap σ !! r = Some l →
  (∃ l', l' `sublist_of` l
         ∧ (Seller.create_stocks ws r σ).2 = set_heap (<[r := l']> (heap σ)) σ
         ∧ ∀ stocks, (Seller.create_stocks ws r σ).1 = Ok stocks →
             length stocks = length l
             ∧ drop (length l - length l') stocks
               = (λ o, {| Seller.offer_id := o; Seller.stock := 0 |}) <$> l')
  ∧ (∃ l', l' `sublist_of` l
           ∧ (Market.create_stocks ws r wh σ).2 = set_heap (<[r := l']> (heap σ)) σ
           ∧ ∀ stocks, (Market.create_stocks ws r wh σ).1 = Ok stocks →
               length stocks = length l
               ∧ drop (length l - length l') stocks
                 = (λ o, market_stock wh (clock σ +:+ "Z") (o, 0)) <$> l').
Proof.
  intros Hr.
  pose proof (working_length ws l) as Hlen.
  split.
  - destruct (Seller.create_stocks ws r σ) as [[stocks|e] σ'] eqn:Hrun.
    + apply (seller_create_stocks_ok _ _ _ l) in Hrun as (ps & Hps & -> & ->); [|done].
      apply collect_Forall2, Forall2_length in Hps.
      exists (working ws l). split_and!; [apply working_sublist|done|].
      intros ? [= <-]. split.
      * rewrite length_app, !length_fmap. lia.
      * rewrite drop_app_length'; [done|]. rewrite length_fmap. lia.
    + revert Hrun. unfold Seller.create_stocks, mbind, M_bind.
      destruct (stocks_loop_frame seller_stock r (Seller.stocks_body r)
                  (λ σ l, seller_stocks_body_step r σ l) ws σ l [] Hr) as (l' & Hsub & Hst).
      destruct (for_each ws [] (Seller.stocks_body r) σ) as [[s|e'] σ1]; simpl in Hst; subst σ1.
      * unfold load. rewrite set_heap_lookup. by rewrite append_loop.
      * intros [= <- <-]. exists l'. by split_and!.
  - destruct (Market.create_stocks ws r wh σ) as [[stocks|e] σ'] eqn:Hrun.
    + apply (market_create_stocks_ok _ _ _ _ l) in Hrun as (ps & Hps & -> & ->); [|done].
      apply collect_Forall2, Forall2_length in Hps.
      exists (working ws l). split_and!; [apply working_sublist|done|].
      intros ? [= <-]. split.
      * rewrite length_app, !length_fmap. lia.
      * rewrite drop_app_length'; [done|]. rewrite length_fmap. lia.
    + revert Hrun. unfold Market.create_stocks, utcnow_isoformat, mbind, M_bind.
      destruct (stocks_loop_frame (market_stock wh (clock σ +:+ "Z")) r
                  (Market.stocks_body r wh (clock σ +:+ "Z"))
                  (λ σ l, market_stocks_body_step wh _ r σ l) ws σ l [] Hr)
        as (l' & Hsub & Hst).
      destruct (for_each ws [] (Market.stocks_body r wh (clock σ +:+ "Z")) σ)
        as [[s|e'] σ1]; simpl in Hst; subst σ1.
      * unfold load. rewrite set_heap_lookup. by rewrite append_loop.
      * intros [= <- <-]. exists l'. by split_and!.
Qed.

Lemma create_stocks_store_frame_witness :
  ∃ l', l' `sublist_of` ["123"; "456"]
        ∧ (Seller.create_stocks [watch_123] sample_ref (sample_world ["123"; "456"])).2
          = set_heap (<[sample_ref := l']> (heap (sample_world ["123"; "456"])))
              (sample_world ["123"; "456"])
        ∧ ∀ stocks,
            (Seller.create_stocks [watch_123] sample_ref (sample_world ["123"; "456"])).1
            = Ok stocks →
            length stocks = length ["123"; "456"]
            ∧ drop (length ["123"; "456"] - length l') stocks
              = (λ o, {| Seller.offer_id := o; Seller.stock := 0 |}) <$> l'.
Proof.
  apply (proj1 (create_stocks_store_frame [watch_123] sample_ref "WH"
                  (sample_world ["123"; "456"]) ["123"; "456"] eq_refl)).
Defined.

(** ** The upload functions and [main] *)

Lemma divide_batches {A : Type} (lst : list A) (n : Z) chunks :
  0 < n →
  divide lst n = Ok chunks →
  concat chunks = lst ∧ ∀ c, c ∈ chunks → 0 < Z.of_nat (length c) ≤ n.
Proof.
  intros Hn. unfold divide, py_range.
  destruct (Z.eqb_spec n 0) as [|_]; [lia|].
  destruct (Z.ltb_spec 0 n) as [_|]; [|lia].
  rewrite Z.sub_0_r, Nat2Z.id. intros [= <-]. split.
  - rewrite chunks_concat by lia. done.
  - intros c [k Hk]%list_elem_of_lookup.
    apply chunk_length in Hk as [Hlen Hin]; lia.
Qed.

Lemma alloc_frame σ (l l' : list string) r' :
  is_Some (heap σ !! r') →
  heap (set_heap (<[fresh (dom (heap σ)) := l']>
                    (heap (set_heap (<[fresh (dom (heap σ)) := l]> (heap σ)) σ)))
          (set_heap (<[fresh (dom (heap σ)) := l]> (heap σ)) σ)) !! r'
  = heap σ !! r'.
Proof.
  intros Hsome. simpl. rewrite insert_insert_eq.
  apply lookup_insert_ne. intros <-.
  apply elem_of_dom in Hsome. by apply (is_fresh (dom (heap σ))).
Qed.

Lemma matched_entry_origin {E : Type} (mk : string * Z → E) ws (l : list string) ps e :
  collect stock_of (matched ws l) = Ok ps →
  e ∈ mk <$> ps →
  ∃ w v, w ∈ ws ∧ e = mk (code_of w, v) ∧ stock_of w = Ok v.
Proof.
  intros Hps%collect_Forall2 ([c v] & -> & [i Hi]%list_elem_of_lookup)%list_elem_of_fmap.
  destruct (Forall2_lookup_r _ _ _ _ _ Hps Hi) as (w & Hw & Hc & Hv). simpl in *.
  exists w, v. split_and!; [|by rewrite Hc|done].
  apply (sublist_subseteq _ _ (matched_sublist ws l)).
  by apply list_elem_of_lookup_2 in Hw.
Qed.

(** X13. [upload_stocks] of seller.py works on a list of offer ids of
    its own and leaves every list object that existed before as it
    was.  When it returns, the batches are the stock entries cut into
    pieces of at most 100, the entries cover the fetched catalogue
    exactly, and the list of non-empty stocks is made of the entries
    whose stock is not 0; each of these comes from a record of the
    snapshot, so that offer ids absent from the snapshot and records
    bucketed to 0 are not reported. *)
Theorem seller_upload_stocks_report fetched ws σ batches not_empty stocks σ' :
  Seller.upload_stocks fetched ws σ = (Ok (batches, not_empty, stocks), σ') →
  concat batches = stocks
  ∧ (∀ b, b ∈ batches → 0 < Z.of_nat (length b) ≤ 100)
  ∧ Seller.offer_id <$> stocks ≡ₚ fetched
  ∧ not_empty `sublist_of` stocks
  ∧ (∀ e, e ∈ not_empty ↔ e ∈ stocks ∧ Seller.stock e ≠ 0)
  ∧ (∀ e, e ∈ not_empty →
       ∃ w, w ∈ ws ∧ Seller.offer_id e = code_of w ∧ stock_of w = Ok (Seller.stock e))
  ∧ (∀ r', is_Some (heap σ !! r') → heap σ' !! r' = heap σ !! r').
Proof.
  unfold Seller.upload_stocks, alloc. unfold mbind at 1, M_bind at 1.
  set (r := fresh (dom (heap σ))).
  set (σ1 := set_heap (<[r := fetched]> (heap σ)) σ).
  assert (Hr : heap σ1 !! r = Some fetched) by apply set_heap_lookup.
  unfold mbind at 1, M_bind at 1.
  destruct (Seller.create_stocks ws r σ1) as [[stocks0|e] σ2] eqn:Hstocks; [|done].
  apply (seller_create_stocks_ok _ _ _ fetched) in Hstocks as (ps & Hps & Hst & ->); [|done].
  unfold mbind, M_bind, lift.
  destruct (divide stocks0 100) as [sb|e] eqn:Hsb; simpl; [|done].
  intros [= <- <- <- <-].
  destruct (divide_batches stocks0 100 sb ltac:(lia) Hsb) as [Hconcat Hsize].
  split_and!; try done.
  - rewrite Hst, seller_stock_ids, (collect_codes _ _ _ Hps).
    symmetry. apply matched_working_perm.
  - apply sublist_filter.
  - intros e. rewrite list_elem_of_filter. tauto.
  - intros e [Hnz He]%list_elem_of_filter. rewrite Hst in He.
    apply elem_of_app in He as [He|He].
    + destruct (matched_entry_origin seller_stock ws fetched ps e Hps He)
        as (w & v & Hw & -> & Hv). eauto.
    + apply list_elem_of_fmap in He as (o & -> & _). by destruct Hnz.
  - intros r' Hr'. by apply alloc_frame.
Qed.

Lemma seller_upload_stocks_report_witness :
  concat [[ seller_stock ("123", 10); seller_stock ("456", 0) ]]
  = [ seller_stock ("123", 10); seller_stock ("456", 0) ]
  ∧ (∀ b, b ∈ [[ seller_stock ("123", 10); seller_stock ("456", 0) ]] →
          0 < Z.of_nat (length b) ≤ 100)
  ∧ Seller.offer_id <$> [ seller_stock ("123", 10); seller_stock ("456", 0) ]
    ≡ₚ ["123"; "456"]
  ∧ [ seller_stock ("123", 10) ]
    `sublist_of` [ seller_stock ("123", 10); seller_stock ("456", 0) ]
  ∧ (∀ e, e ∈ [ seller_stock ("123", 10) ]
          ↔ e ∈ [ seller_stock ("123", 10); seller_stock ("456", 0) ] ∧ Seller.stock e ≠ 0)
  ∧ (∀ e, e ∈ [ seller_stock ("123", 10) ] →
       ∃ w, w ∈ [watch_123] ∧ Seller.offer_id e = code_of w
            ∧ stock_of w = Ok (Seller.stock e))
  ∧ (∀ r', is_Some (heap empty_world !! r') →
       heap (Seller.upload_stocks ["123"; "456"] [watch_123] empty_world).2 !! r'
       = heap empty_world !! r').
Proof.
  apply (seller_upload_stocks_report ["123"; "456"] [watch_123] empty_world).
  vm_compute. reflexivity.
Defined.

Lemma py_filter_total {A : Type} (pred : A → res bool) (b : A → bool) (xs : list A) :
  (∀ x, x ∈ xs → pred x = Ok (b x)) →
  py_filter pred xs = Ok (filter (λ x, b x = true) xs).
Proof.
  induction xs as [|x xs IH]; intros Hpred; simpl; [done|].
  rewrite (Hpred x) by left. rewrite IH by (intros y Hy; apply Hpred; by right).
  destruct (b x) eqn:Hb.
  - by rewrite filter_cons_True.
  - rewrite filter_cons_False; [done|]. by rewrite Hb.
Qed.

(** X14. [upload_stocks] of market.py.  Every entry that
    [create_stocks] returns has exactly one item, so that reading
    [items[0]] in the filter does not fail on them: the filter keeps
    the entries whose item has a count other than 0.  When
    [upload_stocks] returns, the batches are the entries cut into
    pieces of at most 2000, the entries cover the fetched catalogue
    exactly, each non-empty one comes from a record of the snapshot,
    and the list objects that existed before are as they were. *)
Theorem market_upload_stocks_report fetched ws wh σ batches not_empty stocks σ' :
  Market.upload_stocks fetched ws wh σ = (Ok (batches, not_empty, stocks), σ') →
  concat batches = stocks
  ∧ (∀ b, b ∈ batches → 0 < Z.of_nat (length b) ≤ 2000)
  ∧ Market.sku <$> stocks ≡ₚ fetched
  ∧ (∀ e, e ∈ stocks → ∃ c, Market.items e = [c])
  ∧ not_empty `sublist_of` stocks
  ∧ (∀ e, e ∈ not_empty
          ↔ e ∈ stocks ∧ ∃ c, Market.items e = [c] ∧ Market.count c ≠ 0)
  ∧ (∀ e, e ∈ not_empty →
       ∃ w c, w ∈ ws ∧ Market.sku e = code_of w ∧ Market.items e = [c]
              ∧ stock_of w = Ok (Market.count c))
  ∧ (∀ r', is_Some (heap σ !! r') → heap σ' !! r' = heap σ !! r')
  ∧ (∀ r0 σ0 l0 stocks0 σ0',
       heap σ0 !! r0 = Some l0 →
       Market.create_stocks ws r0 wh σ0 = (Ok stocks0, σ0') →
       py_filter Market.first_count_nonzero stocks0
       = Ok (filter (λ e, Market.count <$> Market.items e ≠ [0]) stocks0)).
Proof.
  assert (Hfilter : ∀ r0 σ0 l0 stocks0 σ0',
            heap σ0 !! r0 = Some l0 →
            Market.create_stocks ws r0 wh σ0 = (Ok stocks0, σ0') →
            py_filter Market.first_count_nonzero stocks0
            = Ok (filter (λ e, Market.count <$> Market.items e ≠ [0]) stocks0)).
  { intros r0 σ0 l0 stocks0 σ0' Hr0 Hrun.
    apply (market_create_stocks_ok _ _ _ _ l0) in Hrun as (ps & _ & Hst & _); [|done].
    assert (Hone : ∀ e, e ∈ stocks0 → ∃ c, Market.items e = [c]).
    { intros e He. rewrite Hst in He.
      apply elem_of_app in He as [He|He];
        apply list_elem_of_fmap in He as (? & -> & _); by eexists. }
    clear Hst. induction stocks0 as [|e es IH]; simpl; [done|].
    destruct (Hone e ltac:(left)) as [c Hc].
    rewrite IH by (intros e' He'; apply Hone; by right).
    unfold Market.first_count_nonzero at 1. rewrite Hc. simpl.
    destruct (Z.eqb_spec (Market.count c) 0) as [Hz|Hnz]; simpl.
    - rewrite filter_cons_False; [done|]. rewrite Hc. simpl. by rewrite Hz; intros [].
    - rewrite filter_cons_True; [done|]. rewrite Hc. simpl. by intros [= ?]. }
  unfold Market.upload_stocks, alloc. unfold mbind at 1, M_bind at 1.
  set (r := fresh (dom (heap σ))).
  set (σ1 := set_heap (<[r := fetched]> (heap σ)) σ).
  assert (Hr : heap σ1 !! r = Some fetched) by apply set_heap_lookup.
  unfold mbind at 1, M_bind at 1.
  destruct (Market.create_stocks ws r wh σ1) as [[stocks0|e] σ2] eqn:Hrun; [|done].
  pose proof (Hfilter _ _ _ _ _ Hr Hrun) as Hkept.
  apply (market_create_stocks_ok _ _ _ _ fetched) in Hrun as (ps & Hps & Hst & ->); [|done].
  set (date := clock σ1 +:+ "Z") in *.
  unfold mbind at 1, M_bind at 1, lift at 1.
  destruct (divide stocks0 2000) as [sb|e] eqn:Hsb; [|done].
  destruct (divide_batches stocks0 2000 sb ltac:(lia) Hsb) as [Hconcat Hsize].
  unfold mbind, M_bind, lift. rewrite Hkept. simpl.
  intros [= <- <- <- <-].
  assert (Hshape : ∀ e, e ∈ stocks0 →
            ∃ c, Market.items e = [c]
                 ∧ ((∃ w, w ∈ ws ∧ Market.sku e = code_of w ∧ stock_of w = Ok (Market.count c))
                    ∨ Market.count c = 0)).
  { intros e He. rewrite Hst in He. apply elem_of_app in He as [He|He].
    - destruct (matched_entry_origin (market_stock wh date) ws fetched ps e Hps He)
        as (w & v & Hw & -> & Hv). eexists. split; [done|]. left. eauto.
    - apply list_elem_of_fmap in He as (o & -> & _). eexists. split; [done|]. by right. }
  split_and!; try done.
  - rewrite Hst, market_stock_ids, (collect_codes _ _ _ Hps).
    symmetry. apply matched_working_perm.
  - intros e He. destruct (Hshape e He) as (c & Hc & _). eauto.
  - apply sublist_filter.
  - intros e. rewrite list_elem_of_filter. split.
    + intros [Hnz He]. split; [done|].
      destruct (Hshape e He) as (c & Hc & _). exists c. split; [done|].
      rewrite Hc in Hnz. simpl in Hnz. intros Hz. by rewrite Hz in Hnz.
    + intros [He (c & Hc & Hnz)]. split; [|done]. rewrite Hc. simpl. by intros [= ?].
  - intros e [Hnz He]%list_elem_of_filter.
    destruct (Hshape e He) as (c & Hc & [(w & Hw & Hsku & Hv)|Hz]).
    + exists w, c. by split_and!.
    + rewrite Hc in Hnz. simpl in Hnz. by rewrite Hz in Hnz.
  - intros r' Hr'. by apply alloc_frame.
Qed.

Lemma market_upload_stocks_report_witness :
  concat [[ market_stock "WH" "2024-05-01T10:00:00Z" ("123", 10);
            market_stock "WH" "2024-05-01T10:00:00Z" ("456", 0) ]]
  = [ market_stock "WH" "2024-05-01T10:00:00Z" ("123", 10);
      market_stock "WH" "2024-05-01T10:00:00Z" ("456", 0) ]
  ∧ Market.sku <$> [ market_stock "WH" "2024-05-01T10:00:00Z" ("123", 10);
                     market_stock "WH" "2024-05-01T10:00:00Z" ("456", 0) ]
    ≡ₚ ["123"; "456"]
  ∧ (∀ e, e ∈ [ market_stock "WH" "2024-05-01T10:00:00Z" ("123", 10) ]
          ↔ e ∈ [ market_stock "WH" "2024-05-01T10:00:00Z" ("123", 10);
                  market_stock "WH" "2024-05-01T10:00:00Z" ("456", 0) ]
            ∧ ∃ c, Market.items e = [c] ∧ Market.count c ≠ 0)
  ∧ (∀ e, e ∈ [ market_stock "WH" "2024-05-01T10:00:00Z" ("123", 10) ] →
       ∃ w c, w ∈ [watch_123] ∧ Market.sku e = code_of w ∧ Market.items e = [c]
              ∧ stock_of w = Ok (Market.count c)).
Proof.
  pose proof (market_upload_stocks_report ["123"; "456"] [watch_123] "WH" empty_world
                [[ market_stock "WH" "2024-05-01T10:00:00Z" ("123", 10);
                   market_stock "WH" "2024-05-01T10:00:00Z" ("456", 0) ]]
                [ market_stock "WH" "2024-05-01T10:00:00Z" ("123", 10) ]
                [ market_stock "WH" "2024-05-01T10:00:00Z" ("123", 10);
                  market_stock "WH" "2024-05-01T10:00:00Z" ("456", 0) ]
                (Market.upload_stocks ["123"; "456"] [watch_123] "WH" empty_world).2)
    as Hreport.
  destruct (Hreport ltac:(vm_compute; reflexivity))
    as (Hconcat & _ & Hids & _ & _ & Hmem & Horigin & _).
  split_and!; [exact Hconcat|exact Hids|exact Hmem|exact Horigin].
Defined.

(** X15. What [main] of seller.py sends when it runs to its end: the
    stock batches hold at most 100 entries each and together cover the
    fetched catalogue exactly; the price batches hold at most 900
    entries each, and their entries are those of the records whose
    code is still in the list after [create_stocks] has consumed it,
    which for a catalogue without duplicates leaves no price batch at
    all. *)
Theorem seller_main_batches fetched ws σ stock_batches price_batches σ' :
  Seller.main fetched ws σ = (Ok (stock_batches, price_batches), σ') →
  Seller.offer_id <$> concat stock_batches ≡ₚ fetched
  ∧ (∀ b, b ∈ stock_batches → 0 < Z.of_nat (length b) ≤ 100)
  ∧ (∀ b, b ∈ price_batches → 0 < Z.of_nat (length b) ≤ 900)
  ∧ Seller.price_offer_id <$> concat price_batches
    = code_of <$> filter (λ w, code_of w ∈ working ws fetched) ws
  ∧ (NoDup fetched → price_batches = []).
Proof.
  intros (stocks & prices & Hsb & Hpb & Hids & Hprices)%seller_main_run.
  destruct (divide_batches stocks 100 stock_batches ltac:(lia) Hsb) as [Hsc Hss].
  destruct (divide_batches prices 900 price_batches ltac:(lia) Hpb) as [Hpc Hps].
  split_and!; try done.
  - by rewrite Hsc.
  - by rewrite Hpc.
  - intros Hnd. rewrite working_misses_records in Hprices by done.
    apply fmap_nil_inv in Hprices. subst prices. by injection Hpb as <-.
Qed.

Lemma seller_main_batches_witness :
  Seller.offer_id
    <$> concat [[ seller_stock ("123", 10); seller_stock ("456", 0) ]] ≡ₚ ["123"; "456"]
  ∧ (∀ b, b ∈ [[ seller_stock ("123", 10); seller_stock ("456", 0) ]] →
          0 < Z.of_nat (length b) ≤ 100)
  ∧ (∀ b : list Seller.price_item, b ∈ [] → 0 < Z.of_nat (length b) ≤ 900)
  ∧ Seller.price_offer_id <$> concat []
    = code_of <$> filter (λ w, code_of w ∈ working [watch_123] ["123"; "456"]) [watch_123]
  ∧ (NoDup ["123"; "456"] → @nil (list Seller.price_item) = []).
Proof.
  apply (seller_main_batches ["123"; "456"] [watch_123] empty_world
           [[ seller_stock ("123", 10); seller_stock ("456", 0) ]] []
           (Seller.main ["123"; "456"] [watch_123] empty_world).2).
  vm_compute. reflexivity.
Defined.

Lemma market_upload_prices_run fetched ws σ batches prices σ' :
  Market.upload_prices fetched ws σ = (Ok (batches, prices), σ') →
  divide prices 500 = Ok batches
  ∧ Market.id <$> prices = code_of <$> filter (λ w, code_of w ∈ fetched) ws
  ∧ σ' = set_heap (<[fresh (dom (heap σ)) := fetched]> (heap σ)) σ.
Proof.
  unfold Market.upload_prices, alloc. unfold mbind at 1, M_bind at 1.
  set (r := fresh (dom (heap σ))).
  unfold mbind at 1, M_bind at 1.
  rewrite (market_create_prices_run ws r _ fetched) by apply set_heap_lookup.
  destruct (collect market_price_of _) as [pps|e] eqn:Hpps; simpl; [|done].
  unfold mbind, M_bind, lift.
  destruct (divide (market_price <$> pps) 500) as [pb|e] eqn:Hpb; simpl; [|done].
  intros [= <- <- <-]. split_and!; [done| |done].
  rewrite <- list_fmap_compose. by apply collect_codes in Hpps.
Qed.

Lemma seller_upload_prices_batches fetched ws σ batches prices σ' :
  Seller.upload_prices fetched ws σ = (Ok (batches, prices), σ') →
  divide prices 1000 = Ok batches
  ∧ σ' = set_heap (<[fresh (dom (heap σ)) := fetched]> (heap σ)) σ.
Proof.
  unfold Seller.upload_prices, alloc. unfold mbind at 1, M_bind at 1.
  set (r := fresh (dom (heap σ))).
  unfold mbind at 1, M_bind at 1.
  rewrite (seller_create_prices_run ws r _ fetched) by apply set_heap_lookup.
  destruct (collect seller_price_of _) as [pps|e] eqn:Hpps; simpl; [|done].
  unfold mbind, M_bind, lift.
  destruct (divide (seller_price <$> pps) 1000) as [pb|e] eqn:Hpb; simpl; [|done].
  by intros [= <- <- <-].
Qed.

Lemma fresh_frame σ (l : list string) r' :
  is_Some (heap σ !! r') →
  heap (set_heap (<[fresh (dom (heap σ)) := l]> (heap σ)) σ) !! r' = heap σ !! r'.
Proof.
  intros Hsome. simpl. apply lookup_insert_ne. intros <-.
  apply elem_of_dom in Hsome. by apply (is_fresh (dom (heap σ))).
Qed.

(** X16. [upload_prices] prices every record whose code is in the
    fetched catalogue, in the order of the snapshot, whatever list
    objects exist already: it works on a list of its own, which it
    leaves complete, and it changes no other.  The price entries are
    sent in batches of at most 1000 in seller.py and at most 500 in
    market.py. *)
Theorem upload_prices_report fetched ws σ :
  (∀ batches prices σ',
     Seller.upload_prices fetched ws σ = (Ok (batches, prices), σ') →
     concat batches = prices
     ∧ (∀ b, b ∈ batches → 0 < Z.of_nat (length b) ≤ 1000)
     ∧ Seller.price_offer_id <$> prices = code_of <$> filter (λ w, code_of w ∈ fetched) ws
     ∧ heap σ' !! fresh (dom (heap σ)) = Some fetched
     ∧ (∀ r', is_Some (heap σ !! r') → heap σ' !! r' = heap σ !! r'))
  ∧ (∀ batches prices σ',
       Market.upload_prices fetched ws σ = (Ok (batches, prices), σ') →
       concat batches = prices
       ∧ (∀ b, b ∈ batches → 0 < Z.of_nat (length b) ≤ 500)
       ∧ Market.id <$> prices = code_of <$> filter (λ w, code_of w ∈ fetched) ws
       ∧ heap σ' !! fresh (dom (heap σ)) = Some fetched
       ∧ (∀ r', is_Some (heap σ !! r') → heap σ' !! r' = heap σ !! r'))
  ∧ (Seller.upload_prices ["456"; "123"]
       [watch_123; watch_row (PStr "789") (PStr "1") (PStr "100.50");
        watch_row (PInt 456) (PStr "1") (PStr "1 250 руб.")]
       (sample_world ["456"])).1
    = Ok ([[ seller_price ("123", "5990"); seller_price ("456", "1250") ]],
          [ seller_price ("123", "5990"); seller_price ("456", "1250") ])
  ∧ (Market.upload_prices ["456"; "123"]
       [watch_123; watch_row (PStr "789") (PStr "1") (PStr "100.50");
        watch_row (PInt 456) (PStr "1") (PStr "1 250 руб.")]
       (sample_world ["456"])).1
    = Ok ([[ market_price ("123", 5990); market_price ("456", 1250) ]],
          [ market_price ("123", 5990); market_price ("456", 1250) ]).
Proof.
  split_and!; [| |vm_compute; reflexivity..].
  - intros batches prices σ' Hrun.
    pose proof (seller_upload_prices_run _ _ _ _ _ _ Hrun) as Hids.
    apply seller_upload_prices_batches in Hrun as [Hb ->].
    destruct (divide_batches prices 1000 batches ltac:(lia) Hb) as [Hc Hs].
    split_and!; [done..|apply set_heap_lookup|].
    intros r' Hr'. by apply fresh_frame.
  - intros batches prices σ' (Hb & Hids & ->)%market_upload_prices_run.
    destruct (divide_batches prices 500 batches ltac:(lia) Hb) as [Hc Hs].
    split_and!; [done..|apply set_heap_lookup|].
    intros r' Hr'. by apply fresh_frame.
Qed.

Lemma upload_prices_report_witness :
  (concat [[ seller_price ("123", "5990") ]] = [ seller_price ("123", "5990") ]
   ∧ (∀ b, b ∈ [[ seller_price ("123", "5990") ]] → 0 < Z.of_nat (length b) ≤ 1000)
   ∧ Seller.price_offer_id <$> [ seller_price ("123", "5990") ]
     = code_of <$> filter (λ w, code_of w ∈ ["123"; "456"]) [watch_123]
   ∧ heap (Seller.upload_prices ["123"; "456"] [watch_123] (sample_world ["456"])).2
       !! fresh (dom (heap (sample_world ["456"]))) = Some ["123"; "456"]
   ∧ (∀ r', is_Some (heap (sample_world ["456"]) !! r') →
        heap (Seller.upload_prices ["123"; "456"] [watch_123] (sample_world ["456"])).2 !! r'
        = heap (sample_world ["456"]) !! r'))
  ∧ (concat [[ market_price ("123", 5990) ]] = [ market_price ("123", 5990) ]
     ∧ (∀ b, b ∈ [[ market_price ("123", 5990) ]] → 0 < Z.of_nat (length b) ≤ 500)
     ∧ Market.id <$> [ market_price ("123", 5990) ]
       = code_of <$> filter (λ w, code_of w ∈ ["123"; "456"]) [watch_123]
     ∧ heap (Market.upload_prices ["123"; "456"] [watch_123] (sample_world ["456"])).2
         !! fresh (dom (heap (sample_world ["456"]))) = Some ["123"; "456"]
     ∧ (∀ r', is_Some (heap (sample_world ["456"]) !! r') →
          heap (Market.upload_prices ["123"; "456"] [watch_123] (sample_world ["456"])).2 !! r'
          = heap (sample_world ["456"]) !! r')).
Proof.
  pose proof (upload_prices_report ["123"; "456"] [watch_123] (sample_world ["456"]))
    as (Hseller & Hmarket & _).
  split.
  - apply Hseller. vm_compute. reflexivity.
  - apply Hmarket. vm_compute. reflexivity.
Defined.

(** ** Fetching the offer ids *)

Section seller_pagination.
Variable get_product_list : string → http_exn + Seller.product_page.
Variable catalogue : list dict.
Variable pos : string → nat.
Variable limit : nat.
Variable reported_total : Z.

(** The listing serves the catalogue page by page: the answer to a
    cursor holds the next [limit] products after the position of the
    cursor, a total, and a cursor for the position behind them. *)
Hypothesis limit_pos : (0 < limit)%nat.
Hypothesis pos_start : pos "" = 0%nat.
Hypothesis serves : ∀ id,
  (pos id ≤ length catalogue)%nat →
  ∃ next,
    get_product_list id
    = inr {| Seller.items := take limit (drop (pos id) catalogue);
             Seller.total := reported_total;
             Seller.last_id := next |}
    ∧ pos next = (pos id + length (take limit (drop (pos id) catalogue)))%nat.

Lemma seller_loop_complete fuel : ∀ id,
  reported_total = Z.of_nat (length catalogue) →
  (pos id ≤ length catalogue)%nat →
  (length catalogue - pos id < fuel)%nat →
  Seller.get_offer_ids_loop get_product_list fuel id (take (pos id) catalogue)
  = Some (inr catalogue).
Proof.
  intros id Htotal. revert id.
  induction fuel as [|fuel IH]; intros id Hpos Hfuel; [lia|]. simpl.
  destruct (serves id Hpos) as (next & -> & Hnext). simpl.
  rewrite take_take_drop. rewrite Htotal.
  rewrite length_take, length_drop in Hnext.
  destruct (Z.eqb_spec (Z.of_nat (length catalogue))
              (Z.of_nat (length (take (pos id + limit) catalogue)))) as [Heq|Hne].
  - rewrite take_ge; [done|]. rewrite length_take in Heq. lia.
  - rewrite length_take in Hne.
    replace (pos id + limit)%nat with (pos next) by lia.
    apply IH; lia.
Qed.

Lemma seller_loop_never_returns fuel : ∀ id,
  Z.of_nat (length catalogue) < reported_total →
  (pos id ≤ length catalogue)%nat →
  Seller.get_offer_ids_loop get_product_list fuel id (take (pos id) catalogue) = None.
Proof.
  intros id Htotal. revert id.
  induction fuel as [|fuel IH]; intros id Hpos; [done|]. simpl.
  destruct (serves id Hpos) as (next & -> & Hnext). simpl.
  rewrite take_take_drop.
  rewrite length_take, length_drop in Hnext.
  destruct (Z.eqb_spec reported_total
              (Z.of_nat (length (take (pos id + limit) catalogue)))) as [Heq|Hne].
  - rewrite length_take in Heq. lia.
  - replace (take (pos id + limit) catalogue) with (take (pos next) catalogue).
    + apply IH. lia.
    + destruct (Nat.le_gt_cases (pos id + limit) (length catalogue)).
      * f_equal. lia.
      * rewrite !take_ge; [done|lia..].
Qed.
End seller_pagination.

(** X17. [get_offer_ids] of seller.py against a listing that serves the
    catalogue page by page, each answer holding the products that
    follow the cursor, the size of the catalogue as total, and the
    cursor behind them: it returns the ["offer_id"] of every product
    of the catalogue, in order and once each, [None] standing for a
    product without that key; one request more than the catalogue has
    products is always enough, and an empty catalogue takes one
    request. *)
Theorem seller_get_offer_ids_complete get_product_list catalogue pos limit fuel :
  (0 < limit)%nat →
  pos "" = 0%nat →
  (∀ id, (pos id ≤ length catalogue)%nat →
     ∃ next,
       get_product_list id
       = inr {| Seller.items := take limit (drop (pos id) catalogue);
                Seller.total := Z.of_nat (length catalogue);
                Seller.last_id := next |}
       ∧ pos next = (pos id + length (take limit (drop (pos id) catalogue)))%nat) →
  (length catalogue < fuel)%nat →
  Seller.get_offer_ids get_product_list fuel
  = Some (inr ((λ product, dict_get product "offer_id") <$> catalogue)).
Proof.
  intros Hlimit Hstart Hserves Hfuel. unfold Seller.get_offer_ids.
  pose proof (seller_loop_complete get_product_list catalogue pos limit
                (Z.of_nat (length catalogue)) Hlimit Hstart Hserves fuel "" eq_refl)
    as Hloop.
  rewrite Hstart, take_0 in Hloop. rewrite Hloop; [done|lia..].
Qed.

(** X18. The same listing with a total that is larger than the number
    of products it serves keeps [get_offer_ids] of seller.py asking
    for ever: the loop leaves only when the total equals the number of
    products received, and there is no bound on the requests. *)
Theorem seller_get_offer_ids_never_returns get_product_list catalogue pos limit total fuel :
  (0 < limit)%nat →
  pos "" = 0%nat →
  (∀ id, (pos id ≤ length catalogue)%nat →
     ∃ next,
       get_product_list id
       = inr {| Seller.items := take limit (drop (pos id) catalogue);
                Seller.total := total;
                Seller.last_id := next |}
       ∧ pos next = (pos id + length (take limit (drop (pos id) catalogue)))%nat) →
  Z.of_nat (length catalogue) < total →
  Seller.get_offer_ids get_product_list fuel = None.
Proof.
  intros Hlimit Hstart Hserves Htotal. unfold Seller.get_offer_ids.
  pose proof (seller_loop_never_returns get_product_list catalogue pos limit
                total Hlimit Hstart Hserves fuel "" Htotal) as Hloop.
  rewrite Hstart, take_0 in Hloop. rewrite Hloop; [done|lia].
Qed.

Lemma sample_listing_serves total id :
  (sample_pos id ≤ length sample_products)%nat →
  ∃ next,
    sample_listing total id
    = inr {| Seller.items := take 2 (drop (sample_pos id) sample_products);
             Seller.total := total;
             Seller.last_id := next |}
    ∧ sample_pos next
      = (sample_pos id + length (take 2 (drop (sample_pos id) sample_products)))%nat.
Proof.
  intros _. eexists. split; [reflexivity|].
  unfold sample_pos. destruct (String.eqb id ""); [reflexivity|].
  destruct (String.eqb id "p2"); reflexivity.
Qed.

Lemma seller_get_offer_ids_complete_witness :
  Seller.get_offer_ids (sample_listing 3) 4
  = Some (inr ((λ product, dict_get product "offer_id") <$> sample_products))
  ∧ (λ product, dict_get product "offer_id") <$> sample_products
    = [PStr "A"; PStr "B"; PNone].
Proof.
  split; [|reflexivity].
  apply (seller_get_offer_ids_complete (sample_listing 3) sample_products sample_pos 2 4).
  - lia.
  - reflexivity.
  - apply (sample_listing_serves 3).
  - simpl. lia.
Defined.

Lemma seller_get_offer_ids_never_returns_witness :
  Seller.get_offer_ids (sample_listing 5) 1000 = None.
Proof.
  apply (seller_get_offer_ids_never_returns (sample_listing 5) sample_products sample_pos 2 5).
  - lia.
  - reflexivity.
  - apply (sample_listing_serves 5).
  - simpl. lia.
Defined.

Lemma market_loop_complete get_product_list (pages : list (list Market.mapping_entry))
    (token : nat → string) :
  (∀ i, (0 < i < length pages)%nat → token i ≠ "") →
  (∀ i entries,
     pages !! i = Some entries →
     ∃ next,
       get_product_list (token i)
       = inr {| Market.offerMappingEntries := entries;
                Market.paging := {| Market.nextPageToken := next |} |}
       ∧ if decide (S i < length pages)%nat then next = Some (token (S i))
         else next = None ∨ next = Some "") →
  ∀ fuel i,
    (i < length pages)%nat →
    (length pages - i ≤ fuel)%nat →
    Market.get_offer_ids_loop get_product_list fuel (token i) (concat (take i pages))
    = Some (inr (concat pages)).
Proof.
  intros Htoken Hserves.
  induction fuel as [|fuel IH]; intros i Hi Hfuel; [lia|]. simpl.
  destruct (lookup_lt_is_Some_2 pages i Hi) as [entries Hentries].
  destruct (Hserves i entries Hentries) as (next & -> & Hnext). simpl.
  assert (Hacc : concat (take i pages) ++ entries = concat (take (S i) pages)).
  { rewrite (take_S_r _ _ _ Hentries), concat_app. simpl. by rewrite app_nil_r. }
  rewrite Hacc. case_decide as Hmore.
  - subst next. destruct (String.eqb_spec (token (S i)) "") as [Hempty|_].
    + by destruct (Htoken (S i) ltac:(lia)).
    + apply IH; lia.
  - rewrite take_ge by lia. by destruct Hnext as [->| ->].
Qed.

(** X19. [get_offer_ids] of market.py against a listing in pages, each
    answer naming the token of the next page and the last one naming
    none, or an empty one: it asks for the pages in turn, starting with
    the empty token, and returns the ["shopSku"] of every entry of
    every page, in order; as many requests as there are pages are
    enough. *)
Theorem market_get_offer_ids_complete get_product_list
    (pages : list (list Market.mapping_entry)) (token : nat → string) fuel :
  token 0%nat = "" →
  (∀ i, (0 < i < length pages)%nat → token i ≠ "") →
  (∀ i entries,
     pages !! i = Some entries →
     ∃ next,
       get_product_list (token i)
       = inr {| Market.offerMappingEntries := entries;
                Market.paging := {| Market.nextPageToken := next |} |}
       ∧ if decide (S i < length pages)%nat then next = Some (token (S i))
         else next = None ∨ next = Some "") →
  (0 < length pages ≤ fuel)%nat →
  Market.get_offer_ids get_product_list fuel
  = Some (inr ((λ product, dict_get (Market.offer product) "shopSku") <$> concat pages)).
Proof.
  intros Hstart Htoken Hserves Hfuel. unfold Market.get_offer_ids.
  pose proof (market_loop_complete get_product_list pages token Htoken Hserves fuel 0)
    as Hloop.
  rewrite Hstart in Hloop. simpl in Hloop. rewrite Hloop; [done|lia..].
Qed.

Lemma market_get_offer_ids_complete_witness :
  Market.get_offer_ids sample_mapping 2
  = Some (inr ((λ product, dict_get (Market.offer product) "shopSku")
                 <$> concat sample_pages))
  ∧ (λ product, dict_get (Market.offer product) "shopSku") <$> concat sample_pages
    = [PStr "A"; PStr "B"; PStr "C"].
Proof.
  split; [|reflexivity].
  apply (market_get_offer_ids_complete sample_mapping sample_pages sample_token 2).
  - reflexivity.
  - intros i Hi. simpl in Hi. destruct i as [|i]; [lia|]. discriminate.
  - intros i entries Hi. destruct i as [|[|i]]; simpl in Hi.
    + injection Hi as <-. eexists. split; reflexivity.
    + injection Hi as <-. eexists. split; [reflexivity|]. left. reflexivity.
    + discriminate Hi.
  - simpl. lia.
Defined.

(** X20. A listing that names a next page token with every answer
    keeps [get_offer_ids] of market.py asking for ever: nothing but an
    absent or empty token ends the loop. *)
Theorem market_get_offer_ids_never_returns get_product_list fuel :
  (∀ page, ∃ entries next,
     get_product_list page
     = inr {| Market.offerMappingEntries := entries;
              Market.paging := {| Market.nextPageToken := Some next |} |}
     ∧ next ≠ "") →
  Market.get_offer_ids get_product_list fuel = None.
Proof.
  intros Hserves. unfold Market.get_offer_ids.
  assert (Hloop : ∀ page acc,
            Market.get_offer_ids_loop get_product_list fuel page acc = None).
  { induction fuel as [|fuel' IH]; intros page acc; [done|]. simpl.
    destruct (Hserves page) as (entries & next & -> & Hnext). simpl.
    destruct (String.eqb_spec next ""); [done|]. apply IH. }
  by rewrite Hloop.
Qed.

Lemma market_get_offer_ids_never_returns_witness :
  Market.get_offer_ids endless_mapping 1000 = None.
Proof.
  apply (market_get_offer_ids_never_returns endless_mapping 1000).
  intros page. eexists _, _. split; [reflexivity|]. discriminate.
Defined.

(** ** Quantity cells that are numbers *)









